(** * The MCP tool contract and registry of [app/mcp/base.py]

    A shallow embedding of [ToolParameter], [ToolMetadata], [ToolResult],
    the abstract class [MCPTool] (with [initialize], [validate_parameters],
    [safe_execute] and [to_langchain_tool_schema]) and of [ToolRegistry],
    followed by the properties the specification states about them.

    Conventions of the embedding.
    - A Python [dict] with string keys is a [gmap string _]; [d.get(k)] is
      the lookup [d !! k], with [None] for a missing key.
    - Values of type [Any] are the fragment [pyval] below; the Python value
      [None] is [VNone].
    - An exception is represented by its class, as far as the handlers
      tell classes apart, and by the text [str(e)] yields.  Every handler of
      the repository is [except Exception]: it catches the instances of
      [Exception] and lets the exceptions that derive from [BaseException]
      only ([asyncio.CancelledError], [KeyboardInterrupt], [SystemExit])
      pass.
    - Coroutines are run to completion: [await f(..)] is the call of [f].
    - A method that mutates the tool, reads the clock or may raise is a
      computation in the monad [M]: a function from the state before to an
      outcome and the state after.  [print] calls are omitted. *)

From stdpp Require Import base option list gmap strings pretty fin_maps.
From Stdlib Require Import ZArith Lia.

#[global] Set Warnings "-clear-no-such-hyp".

Open Scope Z_scope.
Open Scope string_scope.

(** ** Python values *)

#[warnings="-register-all"]
Inductive pyval : Type :=
| VNone
| VBool (b : bool)
| VInt (z : Z)
| VStr (s : string)
| VList (l : list pyval).

(** [value is None] *)
Definition is_None (v : pyval) : bool :=
  match v with VNone => true | _ => false end.

(** [a == b].  [bool] is a subclass of [int]: [True == 1] and [False == 0]. *)
Fixpoint py_eqb (a b : pyval) {struct a} : bool :=
  match a, b with
  | VNone, VNone => true
  | VBool x, VBool y => Bool.eqb x y
  | VBool x, VInt z => Z.eqb (Z.b2z x) z
  | VInt z, VBool x => Z.eqb z (Z.b2z x)
  | VInt x, VInt y => Z.eqb x y
  | VStr x, VStr y => String.eqb x y
  | VList xs, VList ys =>
      (fix list_eqb (xs ys : list pyval) {struct xs} : bool :=
         match xs, ys with
         | [], [] => true
         | x :: xs', y :: ys' => py_eqb x y && list_eqb xs' ys'
         | _, _ => false
         end) xs ys
  | _, _ => false
  end.

(** [value in l] for a list [l]: some element equals [value]. *)
Definition py_in (value : pyval) (l : list pyval) : bool :=
  existsb (py_eqb value) l.

(** [d.get(k)]: the value under [k], or [None]. *)
Definition dict_get (d : gmap string pyval) (k : string) : pyval :=
  match d !! k with
  | Some v => v
  | None => VNone
  end.

(** Truth value of an [Optional[List[Any]]]: [None] and [[]] are false. *)
Definition truthy (o : option (list pyval)) : bool :=
  match o with
  | Some (_ :: _) => true
  | _ => false
  end.

(** The interpreter's [repr] of a value, used by f-strings that print a
    list.  Its text is fixed by the Python implementation, not by this
    repository, so it is an interface here. *)
Class PyBuiltins := { py_repr : pyval → string }.

(** ** Exceptions and outcomes *)

(** [ValueError], [KeyError] and [OtherError] (any other instance of
    [Exception]) are caught by [except Exception]; [CancelledError]
    ([asyncio.CancelledError], raised at an [await] of a task that is
    cancelled), [KeyboardInterrupt] and [SystemExit] derive from
    [BaseException] only and are not. *)
Inductive exn : Type :=
| ValueError (msg : string)
| KeyError (key : string)
| OtherError (msg : string)
| CancelledError (msg : string)
| KeyboardInterrupt (msg : string)
| SystemExit (msg : string).

(** [isinstance(e, Exception)] *)
Definition is_Exception (e : exn) : bool :=
  match e with
  | ValueError _ | KeyError _ | OtherError _ => true
  | CancelledError _ | KeyboardInterrupt _ | SystemExit _ => false
  end.

(** [str(e)]; the text of a [KeyError] is the [repr] of its key. *)
Definition str `{PyBuiltins} (e : exn) : string :=
  match e with
  | ValueError msg => msg
  | KeyError key => py_repr (VStr key)
  | OtherError msg => msg
  | CancelledError msg => msg
  | KeyboardInterrupt msg => msg
  | SystemExit msg => msg
  end.

Inductive outcome (A : Type) : Type :=
| Ret (a : A)
| Raise (e : exn).
Arguments Ret {A} a.
Arguments Raise {A} e.

(** ** The data model *)

Record ToolParameter := {
  name : string;
  type : string;
  description : string;
  required : bool;               (* = True *)
  default : pyval;               (* Optional[Any] = None *)
  enum : option (list pyval)     (* Optional[List[Any]] = None *)
}.

(** The fields [name] and [description] of [ToolMetadata] are [tool_name]
    and [tool_description] here, the short names being those of
    [ToolParameter]. *)
Record ToolMetadata := {
  tool_name : string;
  tool_description : string;
  parameters : list ToolParameter;
  category : string;             (* = "general" *)
  version : string;              (* = "1.0.0" *)
  author : option string;
  tags : list string
}.

Record ToolResult := {
  success : bool;
  result : pyval;                           (* Optional[Any] = None *)
  error : option string;                    (* Optional[str] = None *)
  result_metadata : option (gmap string pyval);
  execution_time : option Z;                (* elapsed time, microseconds *)
  timestamp : Z                             (* datetime.now() at creation *)
}.

(** [result.execution_time = execution_time] *)
Definition set_execution_time (r : ToolResult) (t : Z) : ToolResult :=
  {| success := success r; result := result r; error := error r;
     result_metadata := result_metadata r;
     execution_time := Some t; timestamp := timestamp r |}.

(** The list an [enum] field holds, [[]] for [None]. *)
Definition enum_values (param : ToolParameter) : list pyval :=
  match enum param with
  | Some l => l
  | None => []
  end.

(** ** Parameter validation *)

Section Validation.
Context `{PyBuiltins}.

Definition missing_message (param : ToolParameter) : string :=
  "缺少必需参数: " ++ name param.

Definition enum_message (param : ToolParameter) : string :=
  "参数 " ++ name param ++ " 值必须在 "
    ++ match enum param with
       | Some l => py_repr (VList l)
       | None => py_repr VNone
       end ++ " 中".

(** One iteration of the loop of [validate_parameters]. *)
Definition validate_step (kwargs : gmap string pyval) (param : ToolParameter)
    (validated : gmap string pyval) : outcome (gmap string pyval) :=
  let value := dict_get kwargs (name param) in
  if required param && is_None value then
    Raise (ValueError (missing_message param))
  else
    let value :=
      if is_None value && negb (is_None (default param))
      then default param else value in
    if negb (is_None value) then
      if truthy (enum param) && negb (py_in value (enum_values param))
      then Raise (ValueError (enum_message param))
      else Ret (<[name param := value]> validated)
    else Ret validated.

(** [for param in self.metadata.parameters: ...]; a [raise] leaves the
    loop. *)
Fixpoint validate_loop (kwargs : gmap string pyval)
    (params : list ToolParameter) (validated : gmap string pyval)
    : outcome (gmap string pyval) :=
  match params with
  | [] => Ret validated
  | param :: rest =>
      match validate_step kwargs param validated with
      | Ret validated' => validate_loop kwargs rest validated'
      | Raise e => Raise e
      end
  end.

Definition validate_parameters (md : ToolMetadata)
    (kwargs : gmap string pyval) : outcome (gmap string pyval) :=
  validate_loop kwargs (parameters md) ∅.
End Validation.

(** ** Computations: state passing with exceptions *)

Definition M (S A : Type) : Type := S → outcome A * S.

Definition ret {S A} (a : A) : M S A := λ s, (Ret a, s).

Definition raise {S A} (e : exn) : M S A := λ s, (Raise e, s).

Definition bind {S A B} (m : M S A) (k : A → M S B) : M S B :=
  λ s, match m s with
       | (Ret a, s') => k a s'
       | (Raise e, s') => (Raise e, s')
       end.

(** [try: m  except Exception as e: handler e].  The handler takes the
    instances of [Exception]; any other exception leaves the statement as it
    was raised.  What [m] did to the state before it raised stays done. *)
Definition try_except {S A} (m : M S A) (handler : exn → M S A) : M S A :=
  λ s, match m s with
       | (Ret a, s') => (Ret a, s')
       | (Raise e, s') =>
           if is_Exception e then handler e s' else (Raise e, s')
       end.

(** A function that may raise but touches no state. *)
Definition pure_call {S A} (o : outcome A) : M S A := λ s, (o, s).

Notation "x <- m ;; k" := (bind m (λ x, k))
  (at level 100, m at next level, right associativity).
Notation "m ;;; k" := (bind m (λ _, k))
  (at level 100, right associativity).

(** ** The environment and the tool class *)

(** The world a tool runs in.  All the base class asks of it is a wall
    clock: [datetime_now] is one call of [datetime.now()], giving the reading
    in microseconds and the world after the reading.  Whatever else the
    world holds (configuration, files, the network) belongs to the
    subclasses. *)
Class Environment (W : Type) := { datetime_now : W → Z * W }.

(** The abstract class [MCPTool]: what a subclass supplies.  [metadata] is
    the abstract property, which every subclass of the repository implements
    by returning a constant; [execute] is the abstract coroutine, called with
    keyword arguments; [_initialize] is the overridable hook. *)
Record MCPTool (W : Type) := {
  metadata : ToolMetadata;
  execute : gmap string pyval → W → outcome ToolResult * W;
  _initialize : W → outcome () * W
}.
Arguments metadata {W} _.
Arguments execute {W} _ _ _.
Arguments _initialize {W} _ _.

(** [async def _initialize(self): pass] of the base class. *)
Definition default_initialize {W} : W → outcome () * W := λ w, (Ret (), w).

(** A tool instance: the attribute [_initialized] set by [__init__] and
    written by [initialize] only, next to the world the hooks act on. *)
Record ToolState (W : Type) := {
  _initialized : bool;
  world : W
}.
Arguments _initialized {W} _.
Arguments world {W} _.
Arguments Build_ToolState {W} _ _.

(** [MCPTool.__init__] *)
Definition new_tool {W} (w : W) : ToolState W :=
  {| _initialized := false; world := w |}.

Section Tool.
Context {W : Type} `{Environment W} `{PyBuiltins}.

Definition get_initialized : M (ToolState W) bool :=
  λ s, (Ret (_initialized s), s).

Definition set_initialized (b : bool) : M (ToolState W) () :=
  λ s, (Ret (), {| _initialized := b; world := world s |}).

(** Running a hook of the subclass, or any code that acts on the world. *)
Definition in_world {A} (f : W → outcome A * W) : M (ToolState W) A :=
  λ s, let '(o, w) := f (world s) in
       (o, {| _initialized := _initialized s; world := w |}).

(** [datetime.now()] *)
Definition now : M (ToolState W) Z :=
  in_world (λ w, let '(t, w') := datetime_now w in (Ret t, w')).

(** [ToolResult(success=.., result=.., error=.., execution_time=..)]: the
    field [timestamp] is filled by its default factory [datetime.now]. *)
Definition new_ToolResult (success : bool) (result : pyval)
    (error : option string) (execution_time : option Z)
    : M (ToolState W) ToolResult :=
  ts <- now ;;
  ret {| success := success; result := result; error := error;
         result_metadata := None; execution_time := execution_time;
         timestamp := ts |}.

Definition initialize (self : MCPTool W) : M (ToolState W) bool :=
  initialized <- get_initialized ;;
  if negb initialized then
    try_except
      (in_world (_initialize self) ;;;
       set_initialized true ;;;
       ret true)
      (λ e, ret false)
  else ret true.

Definition safe_execute (self : MCPTool W) (kwargs : gmap string pyval)
    : M (ToolState W) ToolResult :=
  start_time <- now ;;
  try_except
    (ok <- initialize self ;;
     if negb ok then
       new_ToolResult false VNone (Some "工具初始化失败") None
     else
       validated_params <-
         pure_call (validate_parameters (metadata self) kwargs) ;;
       result <- in_world (execute self validated_params) ;;
       end_time <- now ;;
       ret (set_execution_time result (end_time - start_time)))
    (λ e,
       end_time <- now ;;
       new_ToolResult false VNone (Some (str e))
         (Some (end_time - start_time))).
End Tool.

(** ** The schema exporter *)

(** The exported dictionary has a fixed outer shape, kept as records; the
    dictionary of one property has optional keys, so it stays a map. *)
Record ParametersSchema := {
  schema_type : string;
  properties : gmap string (gmap string pyval);
  required_names : list string
}.

Record ToolSchema := {
  schema_name : string;
  schema_description : string;
  schema_parameters : ParametersSchema
}.

(** [{**base, **extra}]: keys of [extra] win. *)
Definition unpack (base extra : gmap string pyval) : gmap string pyval :=
  extra ∪ base.

(** The dictionary built for one parameter. *)
Definition property_schema (param : ToolParameter) : gmap string pyval :=
  unpack
    (unpack
       (<["description" := VStr (description param)]>
          (<["type" := VStr (type param)]> ∅))
       (if truthy (enum param)
        then {["enum" := VList (enum_values param)]} else ∅))
    (if negb (is_None (default param))
     then {["default" := default param]} else ∅).

(** [{param.name: property for param in params}]: built left to right, a
    repeated key keeps the value written last. *)
Definition add_property (d : gmap string (gmap string pyval))
    (param : ToolParameter) : gmap string (gmap string pyval) :=
  <[name param := property_schema param]> d.

Definition properties_of (params : list ToolParameter)
    : gmap string (gmap string pyval) :=
  foldl add_property ∅ params.

(** [[param.name for param in params if param.required]] *)
Definition required_of (params : list ToolParameter) : list string :=
  name <$> filter (λ param, required param = true) params.

Definition to_langchain_tool_schema {W} (self : MCPTool W)
    (state : ToolState W) : ToolSchema :=
  {| schema_name := tool_name (metadata self);
     schema_description := tool_description (metadata self);
     schema_parameters :=
       {| schema_type := "object";
          properties := properties_of (parameters (metadata self));
          required_names := required_of (parameters (metadata self)) |} |}.

(** ** The registry *)

Record ToolRegistry (W : Type) := {
  _tools : gmap string (MCPTool W);
  _categories : gmap string (list string)
}.
Arguments _tools {W} _.
Arguments _categories {W} _.
Arguments Build_ToolRegistry {W} _ _.

Section Registry.
Context {W : Type}.

(** [ToolRegistry.__init__] *)
Definition new_registry : ToolRegistry W :=
  {| _tools := ∅; _categories := ∅ |}.

Definition register (tool : MCPTool W) (self : ToolRegistry W)
    : ToolRegistry W :=
  let tool_name := tool_name (metadata tool) in
  let tool_category := category (metadata tool) in
  let tools := <[tool_name := tool]> (_tools self) in
  let categories :=
    match _categories self !! tool_category with
    | None => <[tool_category := []]> (_categories self)
    | Some _ => _categories self
    end in
  let members : list string := categories !!! tool_category in
  let categories :=
    if bool_decide (tool_name ∈ members) then categories
    else <[tool_category := (members ++ [tool_name])%list]> categories in
  {| _tools := tools; _categories := categories |}.

Definition get_tool (self : ToolRegistry W) (name : string)
    : option (MCPTool W) :=
  _tools self !! name.

(** [self._tools[name]]: a missing key raises [KeyError]. *)
Definition tools_getitem (self : ToolRegistry W) (name : string)
    : outcome (MCPTool W) :=
  match _tools self !! name with
  | Some tool => Ret tool
  | None => Raise (KeyError name)
  end.

(** [[f(x) for x in l]] where [f] may raise. *)
Fixpoint comprehension {A B} (f : A → outcome B) (l : list A)
    : outcome (list B) :=
  match l with
  | [] => Ret []
  | x :: l' =>
      match f x with
      | Raise e => Raise e
      | Ret y =>
          match comprehension f l' with
          | Raise e => Raise e
          | Ret ys => Ret (y :: ys)
          end
      end
  end.

Definition get_tools_by_category (self : ToolRegistry W)
    (category : string) : outcome (list (MCPTool W)) :=
  let tool_names :=
    match _categories self !! category with
    | Some l => l
    | None => []
    end in
  comprehension (tools_getitem self) tool_names.

(** The registry after registering the tools of a list, first to last. *)
Definition register_all (tools : list (MCPTool W))
    (self : ToolRegistry W) : ToolRegistry W :=
  foldl (λ r tool, register tool r) self tools.
End Registry.

(** ** Validation as the specification words it

    The second definition of validation, written from the sentences of the
    specification rather than from the code, to be compared with
    [validate_parameters]. *)

Inductive validation_failure : Type :=
| MissingParameter (param : ToolParameter)
| InvalidEnumValue (param : ToolParameter).

Section ValidationSpec.
Context `{PyBuiltins}.

(** The value supplied for a parameter, if one is. *)
Definition supplied_value (kwargs : gmap string pyval)
    (param : ToolParameter) : option pyval :=
  match kwargs !! name param with
  | Some v => if is_None v then None else Some v
  | None => None
  end.

(** The default of a parameter, if one exists. *)
Definition existing_default (param : ToolParameter) : option pyval :=
  if is_None (default param) then None else Some (default param).

(** The non-empty enum constraint of a parameter, if one exists. *)
Definition nonempty_enum (param : ToolParameter) : option (list pyval) :=
  match enum param with
  | Some (v :: l) => Some (v :: l)
  | _ => None
  end.

(** The supplied value, or the default when no value is supplied. *)
Definition resolved_value (kwargs : gmap string pyval)
    (param : ToolParameter) : option pyval :=
  match supplied_value kwargs param with
  | Some v => Some v
  | None => existing_default param
  end.

Definition spec_step (kwargs : gmap string pyval) (param : ToolParameter)
    (output : gmap string pyval) : validation_failure + gmap string pyval :=
  match required param, supplied_value kwargs param with
  | true, None => inl (MissingParameter param)
  | _, _ =>
      match resolved_value kwargs param with
      | None => inr output
      | Some v =>
          match nonempty_enum param with
          | Some allowed =>
              if py_in v allowed
              then inr (<[name param := v]> output)
              else inl (InvalidEnumValue param)
          | None => inr (<[name param := v]> output)
          end
      end
  end.

(** The descriptors in declaration order; the first failure ends it. *)
Fixpoint spec_validate (kwargs : gmap string pyval)
    (params : list ToolParameter) (output : gmap string pyval)
    : validation_failure + gmap string pyval :=
  match params with
  | [] => inr output
  | param :: rest =>
      match spec_step kwargs param output with
      | inl failure => inl failure
      | inr output' => spec_validate kwargs rest output'
      end
  end.

(** How the code reports each failure: a [ValueError] whose text names the
    parameter. *)
Definition raised (r : validation_failure + gmap string pyval)
    : outcome (gmap string pyval) :=
  match r with
  | inl (MissingParameter param) => Raise (ValueError (missing_message param))
  | inl (InvalidEnumValue param) => Raise (ValueError (enum_message param))
  | inr output => Ret output
  end.
End ValidationSpec.

(** ** Concrete tools and a concrete world *)

(** [repr] on the fragment: exact for [None], booleans, integers and lists
    of them, and for strings that need no escaping. *)
Fixpoint reference_repr (v : pyval) : string :=
  match v with
  | VNone => "None"
  | VBool true => "True"
  | VBool false => "False"
  | VInt z => pretty z
  | VStr s => "'" ++ s ++ "'"
  | VList l =>
      "[" ++ (fix items (l : list pyval) : string :=
                match l with
                | [] => ""
                | [x] => reference_repr x
                | x :: l' => reference_repr x ++ ", " ++ items l'
                end) l ++ "]"
  end.

Definition reference_builtins : PyBuiltins := {| py_repr := reference_repr |}.

(** A world for running examples: the readings the wall clock will give,
    one per call of [datetime.now()], and the two settings of
    [app/core/config.py] that [GoogleSearchTool] consults. *)
Record SimWorld := {
  clock_readings : list Z;
  GOOGLE_API_KEY : option string;   (* Optional[str] = None *)
  GOOGLE_CSE_ID : option string     (* Optional[str] = None *)
}.

Definition sim_now (w : SimWorld) : Z * SimWorld :=
  match clock_readings w with
  | t :: later =>
      (t, {| clock_readings := later; GOOGLE_API_KEY := GOOGLE_API_KEY w;
             GOOGLE_CSE_ID := GOOGLE_CSE_ID w |})
  | [] => (0, w)
  end.

Definition sim_environment : Environment SimWorld :=
  {| datetime_now := sim_now |}.

(** Truth value of an [Optional[str]]: [None] and the empty string are
    false. *)
Definition truthy_str (o : option string) : bool :=
  match o with
  | None | Some "" => false
  | Some _ => true
  end.

(** [GoogleSearchTool] of [app/mcp/tools/web_search.py]: its metadata and
    its [_initialize].  The body of [execute] talks to the network and is
    left to the caller of this definition. *)
Definition GoogleSearchTool_metadata : ToolMetadata :=
  {| tool_name := "google_search";
     tool_description := "使用Google搜索API搜索网络信息";
     category := "web";
     parameters :=
       [ {| name := "query"; type := "string"; description := "搜索查询词";
            required := true; default := VNone; enum := None |};
         {| name := "num_results"; type := "integer";
            description := "返回结果数量";
            required := false; default := VInt 5; enum := None |};
         {| name := "lang"; type := "string"; description := "搜索语言";
            required := false; default := VStr "zh-CN"; enum := None |} ];
     version := "1.0.0";
     author := None;
     tags := ["搜索"; "网络"; "信息获取"] |}.

Definition GoogleSearchTool_initialize (w : SimWorld)
    : outcome () * SimWorld :=
  if negb (truthy_str (GOOGLE_API_KEY w)) || negb (truthy_str (GOOGLE_CSE_ID w))
  then (Raise (ValueError "Google API密钥或CSE ID未配置"), w)
  else (Ret (), w).

Definition GoogleSearchTool
    (search : gmap string pyval → SimWorld → outcome ToolResult * SimWorld)
    : MCPTool SimWorld :=
  {| metadata := GoogleSearchTool_metadata;
     execute := search;
     _initialize := GoogleSearchTool_initialize |}.

(** The tool of the specification's scenario: named [echo], category
    [test], one required string parameter [text]; [execute(text)] returns
    [ToolResult(success=True, result=text)] and there is no setup. *)
Definition echo_metadata : ToolMetadata :=
  {| tool_name := "echo";
     tool_description := "echo";
     category := "test";
     parameters :=
       [ {| name := "text"; type := "string"; description := "text";
            required := true; default := VNone; enum := None |} ];
     version := "1.0.0";
     author := None;
     tags := [] |}.

Definition echo_execute {W} `{Environment W} (kwargs : gmap string pyval)
    (w : W) : outcome ToolResult * W :=
  match kwargs !! "text" with
  | Some text =>
      let '(ts, w') := datetime_now w in
      (Ret {| success := true; result := text; error := None;
              result_metadata := None; execution_time := None;
              timestamp := ts |}, w')
  | None =>
      (Raise (OtherError
                "execute() missing 1 required positional argument: 'text'"), w)
  end.

Definition echo {W} `{Environment W} : MCPTool W :=
  {| metadata := echo_metadata;
     execute := echo_execute;
     _initialize := default_initialize |}.

(** ** Declared names *)

(** The names the metadata declares, in declaration order. *)
Definition declared_names (md : ToolMetadata) : list string :=
  name <$> parameters md.

(** The arguments of a call that are supplied under a declared name. *)
Definition declared_only (md : ToolMetadata) (kwargs : gmap string pyval)
    : gmap string pyval :=
  filter (λ kv, kv.1 ∈ declared_names md) kwargs.

(** ** The phases of [safe_execute]

    Names for the intermediate worlds of one call, used to state what the
    call returns on each of its paths. *)

Section Phases.
Context {W : Type} `{Environment W}.

(** The reading [start_time] and the world after it. *)
Definition start_reading (s : ToolState W) : Z :=
  fst (datetime_now (world s)).

Definition after_start (s : ToolState W) : W :=
  snd (datetime_now (world s)).

(** What [initialize] does to the world within [safe_execute]: nothing
    when the tool is initialized, one run of [_initialize] otherwise. *)
Definition setup_phase (self : MCPTool W) (s : ToolState W)
    : outcome () * W :=
  if _initialized s then (Ret (), after_start s)
  else _initialize self (after_start s).

(** The elapsed time stamped when the world is [w] at the second reading. *)
Definition elapsed (s : ToolState W) (w : W) : Z :=
  fst (datetime_now w) - start_reading s.
End Phases.

(** ** Views of the registry and of the parameter list *)

(** The names listed under a category, [[]] for an unknown one:
    [self._categories.get(category, [])]. *)
Definition category_members {W} (self : ToolRegistry W) (c : string)
    : list string :=
  match _categories self !! c with
  | Some l => l
  | None => []
  end.

(** What the registry guarantees about its two indexes: a listed name is a
    registered name, and no list repeats a name. *)
Definition indexes_consistent {W} (self : ToolRegistry W) : Prop :=
  ∀ c, NoDup (category_members self c)
       ∧ ∀ n, n ∈ category_members self c → is_Some (get_tool self n).

(** The last descriptor declared under a name. *)
Definition last_named (k : string) (params : list ToolParameter)
    : option ToolParameter :=
  last (filter (λ param, name param = k) params).

(** A tool that differs from [tool] in its category only. *)
Definition recategorized {W} (c : string) (tool : MCPTool W) : MCPTool W :=
  {| metadata :=
       {| tool_name := tool_name (metadata tool);
          tool_description := tool_description (metadata tool);
          parameters := parameters (metadata tool);
          category := c;
          version := version (metadata tool);
          author := author (metadata tool);
          tags := tags (metadata tool) |};
     execute := execute tool;
     _initialize := _initialize tool |}.

(** ** Sequences of calls on one tool *)

(** The two entry points of a tool that touch its state. *)
Inductive call : Type :=
| Initialize
| SafeExecute (kwargs : gmap string pyval).

Section Calls.
Context {W : Type} `{Environment W} `{PyBuiltins}.

(** The state a call leaves behind. *)
Definition run_call (self : MCPTool W) (s : ToolState W) (c : call)
    : ToolState W :=
  match c with
  | Initialize => snd (initialize self s)
  | SafeExecute kwargs => snd (safe_execute self kwargs s)
  end.

Definition run_calls (self : MCPTool W) (s : ToolState W) (cs : list call)
    : ToolState W :=
  foldl (run_call self) s cs.
End Calls.

(** ** Inputs for the examples *)

(** The world of a fresh installation: [app/core/config.py] gives both
    Google settings the default [None]. *)
Definition unconfigured : SimWorld :=
  {| clock_readings := [100; 250; 400; 700];
     GOOGLE_API_KEY := None; GOOGLE_CSE_ID := None |}.

(** A world whose wall clock is set back while a call runs. *)
Definition clock_set_back : SimWorld :=
  {| clock_readings := [500; 400; 300; 200];
     GOOGLE_API_KEY := None; GOOGLE_CSE_ID := None |}.

(** The body of [GoogleSearchTool.execute] on a machine without network:
    the request fails and the method returns a failure envelope. *)
Definition offline_search (kwargs : gmap string pyval) (w : SimWorld)
    : outcome ToolResult * SimWorld :=
  let '(ts, w') := sim_now w in
  (Ret {| success := false; result := VNone;
          error := Some "Cannot connect to host www.googleapis.com:443";
          result_metadata := None; execution_time := None;
          timestamp := ts |}, w').

(** A setup and a body that wait for the network and are cancelled while
    they wait: the [await] inside raises [asyncio.CancelledError]. *)
Definition cancelled_initialize (w : SimWorld) : outcome () * SimWorld :=
  (Raise (CancelledError EmptyString), w).

Definition cancelled_execute (kwargs : gmap string pyval) (w : SimWorld)
    : outcome ToolResult * SimWorld :=
  (Raise (CancelledError EmptyString), w).

(** A setup that fails until the service it needs is up: here, until the
    wall clock has been read once. *)
Definition ready_later_initialize (w : SimWorld) : outcome () * SimWorld :=
  if bool_decide (length (clock_readings w) < 4)%nat then (Ret (), w)
  else (Raise (OtherError "service not ready"), w).

(** Metadata with an empty enum list and with one name declared twice. *)
Definition irregular_metadata : ToolMetadata :=
  {| tool_name := "irregular";
     tool_description := "irregular";
     category := "general";
     parameters :=
       [ {| name := "mode"; type := "string"; description := "mode";
            required := false; default := VNone; enum := Some [] |};
         {| name := "level"; type := "string"; description := "first";
            required := false; default := VNone; enum := None |};
         {| name := "level"; type := "integer"; description := "second";
            required := true; default := VNone; enum := None |} ];
     version := "1.0.0";
     author := None;
     tags := [] |}.

Definition irregular : MCPTool SimWorld :=
  {| metadata := irregular_metadata;
     execute := offline_search;
     _initialize := default_initialize |}.

(** ** Further views used by the properties *)

(** The value the loop of [validate_parameters] holds for a parameter after
    the substitution of the default: the argument, or the default when the
    argument is [None] and the default is not. *)
Definition resolved_py (kwargs : gmap string pyval) (param : ToolParameter)
    : pyval :=
  let value := dict_get kwargs (name param) in
  if is_None value && negb (is_None (default param))
  then default param else value.

(** A subclass that differs in one method only. *)
Definition with_execute {W}
    (body : gmap string pyval → W → outcome ToolResult * W)
    (tool : MCPTool W) : MCPTool W :=
  {| metadata := metadata tool; execute := body;
     _initialize := _initialize tool |}.

Definition with_initialize {W} (setup : W → outcome () * W)
    (tool : MCPTool W) : MCPTool W :=
  {| metadata := metadata tool; execute := execute tool;
     _initialize := setup |}.

(** [if name not in members: members.append(name)] *)
Definition add_once (members : list string) (n : string) : list string :=
  if bool_decide (n ∈ members) then members else (members ++ [n])%list.

(** ** Dictionaries in insertion order

    A Python [dict] keeps its keys in the order of their first insertion.
    Where that order is observable ([keys()], [values()], iteration) the
    dictionary is an association list without repeated keys: assignment to
    a present key replaces the value in place, assignment to a new key
    appends. *)

Definition pydict (V : Type) : Type := list (string * V).

(** [d[k] = v] *)
Fixpoint pydict_set {V} (k : string) (v : V) (d : pydict V) : pydict V :=
  match d with
  | [] => [(k, v)]
  | (k', v') :: d' =>
      if decide (k' = k) then (k, v) :: d'
      else (k', v') :: pydict_set k v d'
  end.

(** [d.get(k)] *)
Fixpoint pydict_get {V} (d : pydict V) (k : string) : option V :=
  match d with
  | [] => None
  | (k', v) :: d' => if decide (k' = k) then Some v else pydict_get d' k
  end.

(** [list(d.keys())] and [list(d.values())] *)
Definition pydict_keys {V} (d : pydict V) : list string := d.*1.

Definition pydict_values {V} (d : pydict V) : list V := d.*2.

(** ** The registry with its insertion order

    [ToolRegistry] once more, with both dictionaries in insertion order, for
    the methods that enumerate them. *)

Module Ordered.

Record ToolRegistry (W : Type) := {
  _tools : pydict (MCPTool W);
  _categories : pydict (list string)
}.
Arguments _tools {W} _.
Arguments _categories {W} _.
Arguments Build_ToolRegistry {W} _ _.

Section Registry.
Context {W : Type}.

Definition new_registry : ToolRegistry W :=
  {| _tools := []; _categories := [] |}.

(** [self._categories[tool_category]], read after the key was ensured. *)
Definition members_of (categories : pydict (list string)) (c : string)
    : list string :=
  match pydict_get categories c with
  | Some l => l
  | None => []
  end.

Definition register (tool : MCPTool W) (self : ToolRegistry W)
    : ToolRegistry W :=
  let tool_name := tool_name (metadata tool) in
  let tool_category := category (metadata tool) in
  let tools := pydict_set tool_name tool (_tools self) in
  let categories :=
    match pydict_get (_categories self) tool_category with
    | None => pydict_set tool_category [] (_categories self)
    | Some _ => _categories self
    end in
  let members := members_of categories tool_category in
  let categories :=
    if bool_decide (tool_name ∈ members) then categories
    else pydict_set tool_category (members ++ [tool_name])%list categories in
  {| _tools := tools; _categories := categories |}.

Definition get_tool (self : ToolRegistry W) (name : string)
    : option (MCPTool W) :=
  pydict_get (_tools self) name.

Definition tools_getitem (self : ToolRegistry W) (name : string)
    : outcome (MCPTool W) :=
  match pydict_get (_tools self) name with
  | Some tool => Ret tool
  | None => Raise (KeyError name)
  end.

Definition get_tools_by_category (self : ToolRegistry W)
    (category : string) : outcome (list (MCPTool W)) :=
  let tool_names :=
    match pydict_get (_categories self) category with
    | Some l => l
    | None => []
    end in
  comprehension (tools_getitem self) tool_names.

Definition list_all_tools (self : ToolRegistry W) : list string :=
  pydict_keys (_tools self).

Definition get_tools_metadata (self : ToolRegistry W) : list ToolMetadata :=
  metadata <$> pydict_values (_tools self).

(** [states] gives the state of the instance registered under a name. *)
Definition get_langchain_tools_schema (self : ToolRegistry W)
    (states : string → ToolState W) : list ToolSchema :=
  (λ tool, to_langchain_tool_schema tool
             (states (tool_name (metadata tool))))
    <$> pydict_values (_tools self).

Definition register_all (tools : list (MCPTool W))
    (self : ToolRegistry W) : ToolRegistry W :=
  foldl (λ r tool, register tool r) self tools.
End Registry.

End Ordered.

(** The registry of the earlier sections seen in an ordered one: the same
    bindings, the order forgotten. *)
Definition unordered {W} (r : Ordered.ToolRegistry W) : ToolRegistry W :=
  {| _tools := list_to_map (Ordered._tools r);
     _categories := list_to_map (Ordered._categories r) |}.

(** What every ordered registry reached by registrations satisfies: no key
    is repeated, and a tool is bound to its own name. *)
Definition well_keyed {W} (r : Ordered.ToolRegistry W) : Prop :=
  NoDup (pydict_keys (Ordered._tools r))
  ∧ NoDup (pydict_keys (Ordered._categories r))
  ∧ ∀ k tool, (k, tool) ∈ Ordered._tools r → tool_name (metadata tool) = k.

(** ** The other tools of the repository and their registration *)

(** The metadata of the four remaining tools, from
    [app/mcp/tools/web_search.py] and [app/mcp/tools/file_operations.py]. *)
Definition BingSearchTool_metadata : ToolMetadata :=
  {| tool_name := "bing_search";
     tool_description := "使用Bing搜索API搜索网络信息";
     category := "web";
     parameters :=
       [ {| name := "query"; type := "string"; description := "搜索查询词";
            required := true; default := VNone; enum := None |};
         {| name := "count"; type := "integer";
            description := "返回结果数量";
            required := false; default := VInt 5; enum := None |};
         {| name := "market"; type := "string"; description := "市场代码";
            required := false; default := VStr "zh-CN"; enum := None |} ];
     version := "1.0.0";
     author := None;
     tags := ["搜索"; "网络"; "信息获取"] |}.

Definition FileReadTool_metadata : ToolMetadata :=
  {| tool_name := "file_read";
     tool_description := "读取文件内容";
     category := "file";
     parameters :=
       [ {| name := "file_path"; type := "string"; description := "文件路径";
            required := true; default := VNone; enum := None |};
         {| name := "encoding"; type := "string"; description := "文件编码";
            required := false; default := VStr "utf-8"; enum := None |} ];
     version := "1.0.0";
     author := None;
     tags := ["文件"; "读取"; "I/O"] |}.

Definition FileWriteTool_metadata : ToolMetadata :=
  {| tool_name := "file_write";
     tool_description := "写入文件内容";
     category := "file";
     parameters :=
       [ {| name := "file_path"; type := "string"; description := "文件路径";
            required := true; default := VNone; enum := None |};
         {| name := "content"; type := "string"; description := "文件内容";
            required := true; default := VNone; enum := None |};
         {| name := "encoding"; type := "string"; description := "文件编码";
            required := false; default := VStr "utf-8"; enum := None |};
         {| name := "mode"; type := "string"; description := "写入模式";
            required := false; default := VStr "w";
            enum := Some [VStr "w"; VStr "a"] |} ];
     version := "1.0.0";
     author := None;
     tags := ["文件"; "写入"; "I/O"] |}.

Definition CSVAnalysisTool_metadata : ToolMetadata :=
  {| tool_name := "csv_analysis";
     tool_description := "分析CSV文件";
     category := "data";
     parameters :=
       [ {| name := "file_path"; type := "string";
            description := "CSV文件路径";
            required := true; default := VNone; enum := None |};
         {| name := "operation"; type := "string"; description := "操作类型";
            required := true; default := VNone;
            enum := Some [VStr "describe"; VStr "head"; VStr "info";
                          VStr "columns"; VStr "shape"] |};
         {| name := "rows"; type := "integer";
            description := "显示行数（用于head操作）";
            required := false; default := VInt 5; enum := None |} ];
     version := "1.0.0";
     author := None;
     tags := ["数据"; "CSV"; "分析"] |}.

(** The method bodies of the five tools that act on the network, the file
    system or settings outside [SimWorld]; they are left to the caller. *)
Record ToolBodies := {
  google_search : gmap string pyval → SimWorld → outcome ToolResult * SimWorld;
  bing_setup : SimWorld → outcome () * SimWorld;
  bing_search : gmap string pyval → SimWorld → outcome ToolResult * SimWorld;
  file_read : gmap string pyval → SimWorld → outcome ToolResult * SimWorld;
  file_write : gmap string pyval → SimWorld → outcome ToolResult * SimWorld;
  csv_analysis : gmap string pyval → SimWorld → outcome ToolResult * SimWorld
}.

(** [tools_to_register] of [register_all_tools], in its order. *)
Definition tools_to_register (b : ToolBodies) : list (MCPTool SimWorld) :=
  [ GoogleSearchTool (google_search b);
    {| metadata := BingSearchTool_metadata; execute := bing_search b;
       _initialize := bing_setup b |};
    {| metadata := FileReadTool_metadata; execute := file_read b;
       _initialize := default_initialize |};
    {| metadata := FileWriteTool_metadata; execute := file_write b;
       _initialize := default_initialize |};
    {| metadata := CSVAnalysisTool_metadata; execute := csv_analysis b;
       _initialize := default_initialize |} ].

(** [register_all_tools] of [app/mcp/tools/__init__.py], on the list it is
    given: the count of registrations and the registry.  [register] raises
    nothing, so the [except] branch of the loop is never taken. *)
Definition register_all_tools {W} (tools_to_register : list (MCPTool W))
    (tool_registry : Ordered.ToolRegistry W)
    : nat * Ordered.ToolRegistry W :=
  foldl (λ '(registered_count, registry) tool,
           (S registered_count, Ordered.register tool registry))
        (0%nat, tool_registry) tools_to_register.

(** ** The routes of [app/api/v1/tools.py] and the tool wrapper of
    [app/services/langchain_service.py] *)

(** What a route gives: the body it returns, the [HTTPException] it
    raises, or an exception that none of its handlers catches. *)
Inductive response (A : Type) : Type :=
| Response (body : A)
| HTTPException (status_code : Z) (detail : string)
| Uncaught (e : exn).
Arguments Response {A} body.
Arguments HTTPException {A} status_code detail.
Arguments Uncaught {A} e.

(** [str.lower], a builtin of the interpreter. *)
Class PyStrings := { py_lower : string → string }.

(** [json.dumps(value, ensure_ascii=False, indent=2)], which raises on a
    value it cannot serialize. *)
Class PyJson := { json_dumps : pyval → outcome string }.

(** [needle in hay] for strings. *)
Fixpoint py_contains (needle hay : string) : bool :=
  String.prefix needle hay
  || match hay with
     | EmptyString => false
     | String _ hay' => py_contains needle hay'
     end.

(** The text an f-string gives for an [Optional[str]]. *)
Definition format_optional (o : option string) : string :=
  match o with
  | Some text => text
  | None => "None"
  end.

(** The text of the [TypeError] raised when a bound method is called with
    a keyword argument named [self]. *)
Definition duplicate_self : exn :=
  OtherError
    "MCPTool.safe_execute() got multiple values for argument 'self'".

Section Calls.
Context {W : Type} `{Environment W} `{PyBuiltins}.

(** [tool.safe_execute] called with the dictionary [parameters] unpacked
    into keywords: the keywords are bound to the signature of the method
    before the body runs, and a keyword named [self] collides with the
    receiver. *)
Definition call_safe_execute (tool : MCPTool W)
    (parameters : gmap string pyval) : M (ToolState W) ToolResult :=
  if bool_decide (is_Some (parameters !! "self")) then raise duplicate_self
  else safe_execute tool parameters.
End Calls.

Module Routes.

Record ToolListing := {
  listing_name : string;
  listing_description : string;
  listing_category : string;
  listing_version : string;
  listing_parameters : list ToolParameter;
  listing_tags : list string
}.

Record ListToolsBody := {
  tools : list ToolListing;
  total_count : nat
}.

Record CategoriesBody := {
  categories : pydict (list string);
  category_count : nat
}.

Record ExecuteBody := {
  body_tool_name : string;
  body_success : bool;
  body_result : pyval;
  body_error : option string;
  body_execution_time : option Z;
  body_timestamp : Z
}.

Record ToolSummary := {
  summary_name : string;
  summary_description : string;
  summary_version : string;
  summary_tags : list string
}.

Record CategoryBody := {
  category_name : string;
  category_tools : list ToolSummary;
  count : nat
}.

Record SearchHit := {
  hit_name : string;
  hit_description : string;
  hit_category : string;
  hit_version : string;
  hit_tags : list string
}.

Record SearchBody := {
  query_keyword : option string;
  query_category : option string;
  query_tag : option string;
  hits : list SearchHit;
  hit_count : nat
}.

Section Routes.
Context {W : Type} `{Environment W} `{PyBuiltins} `{PyStrings}.

(** The dictionary of one parameter has the six fields of the descriptor,
    so the descriptor stands for it. *)
Definition listing_of (metadata : ToolMetadata) : ToolListing :=
  {| listing_name := tool_name metadata;
     listing_description := tool_description metadata;
     listing_category := category metadata;
     listing_version := version metadata;
     listing_parameters := parameters metadata;
     listing_tags := tags metadata |}.

Definition list_tools (tool_registry : Ordered.ToolRegistry W)
    : response ListToolsBody :=
  let tools_metadata := Ordered.get_tools_metadata tool_registry in
  let tools_info := listing_of <$> tools_metadata in
  Response {| tools := tools_info; total_count := length tools_info |}.

(** The body of the loop of [list_tool_categories]. *)
Definition add_to_category (categories : pydict (list string))
    (metadata : ToolMetadata) : pydict (list string) :=
  let category := category metadata in
  let categories :=
    match pydict_get categories category with
    | None => pydict_set category [] categories
    | Some _ => categories
    end in
  pydict_set category
    (Ordered.members_of categories category ++ [tool_name metadata])%list
    categories.

Definition list_tool_categories (tool_registry : Ordered.ToolRegistry W)
    : response CategoriesBody :=
  let tools_metadata := Ordered.get_tools_metadata tool_registry in
  let categories := foldl add_to_category [] tools_metadata in
  Response {| categories := categories;
              category_count := length categories |}.

(** The state threaded through [execute_tool] is that of the instance the
    lookup returns. *)
Definition execute_tool (tool_registry : Ordered.ToolRegistry W)
    (tool_name : string) (parameters : gmap string pyval)
    (s : ToolState W) : response ExecuteBody * ToolState W :=
  match Ordered.get_tool tool_registry tool_name with
  | None => (HTTPException 404 ("工具 " ++ tool_name ++ " 不存在"), s)
  | Some tool =>
      match call_safe_execute tool parameters s with
      | (Ret envelope, s') =>
          (Response {| body_tool_name := tool_name;
                       body_success := success envelope;
                       body_result := result envelope;
                       body_error := error envelope;
                       body_execution_time := execution_time envelope;
                       body_timestamp := timestamp envelope |}, s')
      | (Raise e, s') =>
          if is_Exception e then (HTTPException 500 (str e), s')
          else (Uncaught e, s')
      end
  end.

Definition summary_of (metadata : ToolMetadata) : ToolSummary :=
  {| summary_name := tool_name metadata;
     summary_description := tool_description metadata;
     summary_version := version metadata;
     summary_tags := tags metadata |}.

Definition get_tools_by_category (tool_registry : Ordered.ToolRegistry W)
    (category : string) : response CategoryBody :=
  match Ordered.get_tools_by_category tool_registry category with
  | Raise e =>
      if is_Exception e then HTTPException 500 (str e) else Uncaught e
  | Ret [] =>
      Response {| category_name := category; category_tools := [];
                  count := 0 |}
  | Ret found =>
      let tools_info := (λ tool, summary_of (metadata tool)) <$> found in
      Response {| category_name := category; category_tools := tools_info;
                  count := length tools_info |}
  end.

Definition hit_of (metadata : ToolMetadata) : SearchHit :=
  {| hit_name := tool_name metadata;
     hit_description := tool_description metadata;
     hit_category := category metadata;
     hit_version := version metadata;
     hit_tags := tags metadata |}.

(** One pass of the loop of [search_tools]: [false] where the loop
    continues without appending.  The filters are [wanted_category] and
    [wanted_tag] here, [category] and [tag] in the source. *)
Definition search_keeps (q wanted_category wanted_tag : option string)
    (metadata : ToolMetadata) : bool :=
  let other_category :=
    match wanted_category with
    | Some c =>
        truthy_str wanted_category
        && negb (bool_decide (category metadata = c))
    | None => false
    end in
  let lacks_tag :=
    match wanted_tag with
    | Some tag =>
        truthy_str wanted_tag && negb (bool_decide (tag ∈ tags metadata))
    | None => false
    end in
  if other_category then false
  else if lacks_tag then false
  else match q with
       | Some keyword =>
           if truthy_str q then
             let search_text :=
               py_lower (tool_name metadata ++ " "
                         ++ tool_description metadata) in
             py_contains (py_lower keyword) search_text
           else true
       | None => true
       end.

Definition search_tools (tool_registry : Ordered.ToolRegistry W)
    (q wanted_category wanted_tag : option string) : response SearchBody :=
  let all_tools := Ordered.get_tools_metadata tool_registry in
  let filtered_tools :=
    hit_of <$> filter (λ metadata,
                         search_keeps q wanted_category wanted_tag metadata
                         = true) all_tools in
  Response {| query_keyword := q; query_category := wanted_category;
              query_tag := wanted_tag; hits := filtered_tools;
              hit_count := length filtered_tools |}.
End Routes.
End Routes.

Module Service.
Section Service.
Context {W : Type} `{Environment W} `{PyBuiltins} `{PyJson}.

(** The body of the wrapper, [wrapped_tool], called with keywords. *)
Definition wrapped_tool (mcp_tool : MCPTool W) (kwargs : gmap string pyval)
    : M (ToolState W) string :=
  try_except
    (envelope <- call_safe_execute mcp_tool kwargs ;;
     if success envelope then pure_call (json_dumps (result envelope))
     else ret ("工具执行失败: " ++ format_optional (error envelope)))
    (λ e, ret ("工具执行异常: " ++ str e)).

(** The loop of [_create_langchain_tools].  What [_wrap_mcp_tool] builds
    is an object of the LangChain library, so the wrapping is left to the
    caller: a function from a tool to the wrapper, which may raise. *)
Fixpoint wrap_each {A} (_wrap_mcp_tool : MCPTool W → outcome A)
    (tool_registry : Ordered.ToolRegistry W) (names : list string)
    (langchain_tools : list A) : outcome (list A) :=
  match names with
  | [] => Ret langchain_tools
  | tool_name :: rest =>
      match Ordered.get_tool tool_registry tool_name with
      | Some mcp_tool =>
          match _wrap_mcp_tool mcp_tool with
          | Ret langchain_tool =>
              wrap_each _wrap_mcp_tool tool_registry rest
                (langchain_tools ++ [langchain_tool])%list
          | Raise e => Raise e
          end
      | None => wrap_each _wrap_mcp_tool tool_registry rest langchain_tools
      end
  end.

Definition _create_langchain_tools {A}
    (_wrap_mcp_tool : MCPTool W → outcome A)
    (tool_registry : Ordered.ToolRegistry W) : outcome (list A) :=
  wrap_each _wrap_mcp_tool tool_registry
    (Ordered.list_all_tools tool_registry) [].
End Service.
End Service.

(** ** Reference builtins for the examples *)

(** [str.lower] on ASCII letters; exact on every string whose cased
    letters are ASCII. *)
Definition lower_ascii (a : Ascii.ascii) : Ascii.ascii :=
  let n := Ascii.nat_of_ascii a in
  if (Nat.leb 65 n && Nat.leb n 90)%bool
  then Ascii.ascii_of_nat (n + 32) else a.

Fixpoint reference_lower (text : string) : string :=
  match text with
  | EmptyString => EmptyString
  | String a rest => String (lower_ascii a) (reference_lower rest)
  end.

Definition reference_strings : PyStrings := {| py_lower := reference_lower |}.

(** [json.dumps(value, ensure_ascii=False, indent=2)] on the fragment. *)
Definition json_quote : string := String (Ascii.ascii_of_nat 34) EmptyString.

Definition hex_digit (n : nat) : Ascii.ascii :=
  Ascii.ascii_of_nat (if Nat.ltb n 10 then 48 + n else 87 + n).

Definition json_escape (a : Ascii.ascii) : string :=
  let n := Ascii.nat_of_ascii a in
  if Nat.eqb n 34 then "\" ++ json_quote
  else if Nat.eqb n 92 then "\\"
  else if Nat.eqb n 10 then "\n"
  else if Nat.eqb n 13 then "\r"
  else if Nat.eqb n 9 then "\t"
  else if Nat.eqb n 8 then "\b"
  else if Nat.eqb n 12 then "\f"
  else if Nat.ltb n 32
       then "\u00" ++ String (hex_digit (n / 16))
                        (String (hex_digit (n mod 16)) EmptyString)
  else String a EmptyString.

Fixpoint json_string_body (text : string) : string :=
  match text with
  | EmptyString => EmptyString
  | String a rest => json_escape a ++ json_string_body rest
  end.

Fixpoint spaces (n : nat) : string :=
  match n with
  | O => EmptyString
  | S n' => " " ++ spaces n'
  end.

Fixpoint json_text (level : nat) (v : pyval) : string :=
  match v with
  | VNone => "null"
  | VBool true => "true"
  | VBool false => "false"
  | VInt z => pretty z
  | VStr text => json_quote ++ json_string_body text ++ json_quote
  | VList [] => "[]"
  | VList (x :: l) =>
      let newline := String (Ascii.ascii_of_nat 10) EmptyString in
      "[" ++ newline ++ spaces (2 * S level) ++ json_text (S level) x
      ++ (fix items (l : list pyval) : string :=
            match l with
            | [] => EmptyString
            | y :: l' =>
                "," ++ newline ++ spaces (2 * S level)
                ++ json_text (S level) y ++ items l'
            end) l
      ++ newline ++ spaces (2 * level) ++ "]"
  end.

Definition reference_json : PyJson :=
  {| json_dumps := λ v, Ret (json_text 0 v) |}.

(** The five tools on a machine without network or files. *)
Definition offline_bodies : ToolBodies :=
  {| google_search := offline_search;
     bing_setup := default_initialize;
     bing_search := offline_search;
     file_read := offline_search;
     file_write := offline_search;
     csv_analysis := offline_search |}.

(** * Properties *)

(** ** Properties of validation *)

Section ValidationFacts.
Context `{PyBuiltins}.

Lemma validate_step_spec kwargs param validated :
  validate_step kwargs param validated
  = raised (spec_step kwargs param validated).
Proof.
  unfold validate_step, spec_step, resolved_value, supplied_value,
    existing_default, nonempty_enum, dict_get, truthy, enum_values.
  destruct (kwargs !! name param) as [v|]; simpl.
  - destruct (is_None v) eqn:Hv.
    + destruct (required param); simpl; [done|].
      destruct (is_None (default param)) eqn:Hd; simpl.
      * by rewrite Hv.
      * rewrite Hd; simpl.
        destruct (enum param) as [[|x l]|]; simpl; try done.
        by destruct (py_eqb (default param) x || py_in (default param) l).
    + rewrite andb_false_r; simpl. rewrite Hv; simpl.
      destruct (required param);
        (destruct (enum param) as [[|x l]|]; simpl; try done;
         by destruct (py_eqb v x || py_in v l)).
  - destruct (required param); simpl; [done|].
    destruct (is_None (default param)) eqn:Hd; simpl; [done|].
    rewrite Hd; simpl.
    destruct (enum param) as [[|x l]|]; simpl; try done.
    by destruct (py_eqb (default param) x || py_in (default param) l).
Qed.

Lemma validate_loop_spec kwargs params validated :
  validate_loop kwargs params validated
  = raised (spec_validate kwargs params validated).
Proof.
  revert validated.
  induction params as [|param rest IH]; intros validated; simpl; [done|].
  rewrite validate_step_spec.
  destruct (spec_step kwargs param validated) as [[p|p]|out]; simpl; auto.
Qed.

(** Validation reads the arguments only through [kwargs.get] at the
    declared names. *)
Lemma validate_step_agree kwargs kwargs' param validated :
  dict_get kwargs (name param) = dict_get kwargs' (name param) →
  validate_step kwargs param validated
  = validate_step kwargs' param validated.
Proof. intros Hg. unfold validate_step. by rewrite Hg. Qed.

Lemma validate_loop_agree kwargs kwargs' params validated :
  (∀ param, param ∈ params →
     dict_get kwargs (name param) = dict_get kwargs' (name param)) →
  validate_loop kwargs params validated
  = validate_loop kwargs' params validated.
Proof.
  revert validated.
  induction params as [|param rest IH]; intros validated Hg; simpl; [done|].
  rewrite (validate_step_agree kwargs kwargs') by (apply Hg; left).
  destruct (validate_step kwargs' param validated); [|done].
  apply IH. intros p Hp. apply Hg. by right.
Qed.

Lemma validate_step_keys kwargs param validated validated' k :
  validate_step kwargs param validated = Ret validated' →
  is_Some (validated' !! k) →
  is_Some (validated !! k) ∨ k = name param.
Proof.
  unfold validate_step.
  repeat case_match; intros [= <-] Hk; auto.
  all: destruct (decide (k = name param)) as [->|Hne]; [by right|].
  all: left; by rewrite lookup_insert_ne in Hk.
Qed.

Lemma validate_loop_keys kwargs params validated validated' k :
  validate_loop kwargs params validated = Ret validated' →
  is_Some (validated' !! k) →
  is_Some (validated !! k) ∨ k ∈ name <$> params.
Proof.
  revert validated.
  induction params as [|param rest IH]; intros validated; simpl.
  - intros [= <-]. auto.
  - destruct (validate_step kwargs param validated) as [v1|e] eqn:Hs;
      [|done].
    intros Hl Hk. destruct (IH _ Hl Hk) as [Hk1|Hin].
    + destruct (validate_step_keys _ _ _ _ _ Hs Hk1) as [?| ->]; auto.
      right. left.
    + right. by right.
Qed.

Lemma dict_get_explicit_None kwargs k n :
  kwargs !! k = Some VNone →
  dict_get kwargs n = dict_get (delete k kwargs) n.
Proof.
  intros Hk. unfold dict_get.
  destruct (decide (k = n)) as [->|Hne].
  - by rewrite Hk, lookup_delete_eq.
  - by rewrite lookup_delete_ne.
Qed.

Lemma dict_get_declared_only md kwargs n :
  n ∈ declared_names md →
  dict_get kwargs n = dict_get (declared_only md kwargs) n.
Proof.
  intros Hn. unfold dict_get, declared_only.
  destruct (kwargs !! n) as [v|] eqn:Hl.
  - by rewrite (map_lookup_filter_Some_2 _ _ n v Hl Hn).
  - by rewrite map_lookup_filter_None_2; [|left].
Qed.

(** C3.  [validate_parameters] computes exactly what the specification
    describes: the descriptors are handled in declaration order; a required
    parameter with no value supplied fails naming the parameter; otherwise
    the value resolves to the supplied one, or to the default when none is
    supplied and a default exists; a resolved value must belong to a
    non-empty enum constraint or validation fails; a resolved value is put
    into the output, and a parameter that resolves to nothing is left
    out. *)
Theorem validate_parameters_refines_spec md kwargs :
  validate_parameters md kwargs
  = raised (spec_validate kwargs (parameters md) ∅).
Proof. apply validate_loop_spec. Qed.

(** C9.  An argument passed as [None] is treated exactly as an argument
    that was not passed: validation of the whole call is unchanged when the
    key is removed; for a required parameter it fails as missing, whatever
    the default; for an optional parameter the default is substituted, or
    the parameter is left out when there is no default. *)
Theorem explicit_None_is_absent md kwargs k :
  kwargs !! k = Some VNone →
  validate_parameters md kwargs = validate_parameters md (delete k kwargs)
  ∧ ∀ param validated, name param = k →
      validate_step kwargs param validated
      = validate_step (delete k kwargs) param validated
      ∧ (required param = true →
         validate_step kwargs param validated
         = Raise (ValueError (missing_message param)))
      ∧ (required param = false → default param = VNone →
         validate_step kwargs param validated = Ret validated)
      ∧ (required param = false → default param ≠ VNone →
         truthy (enum param) = false
         ∨ py_in (default param) (enum_values param) = true →
         validate_step kwargs param validated
         = Ret (<[k := default param]> validated)).
Proof.
  intros Hk. split.
  - apply validate_loop_agree. intros param _.
    by apply dict_get_explicit_None.
  - intros param validated <-. split.
    { apply validate_step_agree. by apply dict_get_explicit_None. }
    unfold validate_step, dict_get. rewrite Hk; simpl.
    split; [by intros ->|].
    split.
    + intros -> ->. done.
    + intros -> Hd Henum.
      assert (is_None (default param) = false) as Hn
        by (by destruct (default param)).
      rewrite Hn; simpl. rewrite Hn; simpl.
      destruct Henum as [-> | ->]; [done|].
      by rewrite andb_false_r.
Qed.

(** On validation alone: the output holds declared names only, and the
    arguments under other names change nothing. *)
Lemma validate_parameters_declared_only md kwargs :
  validate_parameters md kwargs
  = validate_parameters md (declared_only md kwargs).
Proof.
  apply validate_loop_agree. intros param Hp.
  apply dict_get_declared_only.
  unfold declared_names. apply list_elem_of_fmap. eauto.
Qed.

Lemma validate_parameters_keys md kwargs validated k :
  validate_parameters md kwargs = Ret validated →
  is_Some (validated !! k) → k ∈ declared_names md.
Proof.
  intros Hv Hk. destruct (validate_loop_keys _ _ _ _ _ Hv Hk) as [He|]; [|done].
  rewrite lookup_empty in He. by destruct He.
Qed.

(** What validation raises is a [ValueError], an instance of
    [Exception]. *)
Lemma validate_parameters_raises_Exception md kwargs e :
  validate_parameters md kwargs = Raise e → is_Exception e = true.
Proof.
  unfold validate_parameters. rewrite validate_loop_spec.
  destruct (spec_validate kwargs (parameters md) ∅) as [[p|p]|out]; simpl;
    by intros [= <-].
Qed.
End ValidationFacts.

(** ** Properties of [initialize] and [safe_execute] *)

Section ToolFacts.
Context {W : Type} `{Environment W} `{PyBuiltins}.
Implicit Types (self : MCPTool W) (s : ToolState W)
  (kwargs : gmap string pyval).

Lemma initialize_done self s :
  _initialized s = true → initialize self s = (Ret true, s).
Proof.
  intros Hi. unfold initialize, bind, get_initialized. by rewrite Hi.
Qed.

Lemma initialize_first self s :
  _initialized s = false →
  initialize self s
  = match _initialize self (world s) with
    | (Ret _, w) => (Ret true, {| _initialized := true; world := w |})
    | (Raise e, w) =>
        if is_Exception e
        then (Ret false, {| _initialized := false; world := w |})
        else (Raise e, {| _initialized := false; world := w |})
    end.
Proof.
  intros Hi.
  unfold initialize, bind, get_initialized, try_except, in_world,
    set_initialized, ret.
  rewrite Hi; simpl.
  destruct (_initialize self (world s)) as [[[]|e] w]; simpl;
    [by rewrite ?Hi|].
  rewrite Hi. by destruct (is_Exception e).
Qed.

(** [initialize] seen from [safe_execute], after the first clock reading. *)
Lemma initialize_setup_phase self s :
  initialize self {| _initialized := _initialized s; world := after_start s |}
  = match setup_phase self s with
    | (Ret _, w) => (Ret true, {| _initialized := true; world := w |})
    | (Raise e, w) =>
        if is_Exception e
        then (Ret false, {| _initialized := false; world := w |})
        else (Raise e, {| _initialized := false; world := w |})
    end.
Proof.
  unfold setup_phase. destruct (_initialized s) eqn:Hi.
  - by rewrite initialize_done.
  - by rewrite initialize_first.
Qed.

Lemma safe_execute_unfold self kwargs s :
  safe_execute self kwargs s
  = try_except
      (ok <- initialize self ;;
       if negb ok then
         new_ToolResult false VNone (Some "工具初始化失败") None
       else
         validated_params <-
           pure_call (validate_parameters (metadata self) kwargs) ;;
         result <- in_world (execute self validated_params) ;;
         end_time <- now ;;
         ret (set_execution_time result (end_time - start_reading s)))
      (λ e,
         end_time <- now ;;
         new_ToolResult false VNone (Some (str e))
           (Some (end_time - start_reading s)))
      {| _initialized := _initialized s; world := after_start s |}.
Proof.
  unfold safe_execute at 1, bind at 1, now at 1, in_world at 1,
    start_reading, after_start.
  by destruct (datetime_now (world s)) as [t0 w0].
Qed.

(** Setup raised an instance of [Exception]: the fixed message, and no
    elapsed time. *)
Lemma safe_execute_setup_failed self kwargs s e w1 :
  setup_phase self s = (Raise e, w1) →
  is_Exception e = true →
  safe_execute self kwargs s
  = (Ret {| success := false; result := VNone;
            error := Some "工具初始化失败"; result_metadata := None;
            execution_time := None;
            timestamp := fst (datetime_now w1) |},
     {| _initialized := false; world := snd (datetime_now w1) |}).
Proof.
  intros Hs Hexn. rewrite safe_execute_unfold.
  unfold try_except, bind at 1.
  rewrite initialize_setup_phase, Hs, Hexn; simpl.
  unfold new_ToolResult, bind, now, in_world, ret; simpl.
  by destruct (datetime_now w1).
Qed.

(** Setup raised outside [Exception]: neither handler takes the exception,
    and the call ends where setup ended. *)
Lemma safe_execute_setup_escapes self kwargs s e w1 :
  setup_phase self s = (Raise e, w1) →
  is_Exception e = false →
  safe_execute self kwargs s
  = (Raise e, {| _initialized := false; world := w1 |}).
Proof.
  intros Hs Hexn. rewrite safe_execute_unfold.
  unfold try_except, bind at 1.
  rewrite initialize_setup_phase, Hs, Hexn; simpl. by rewrite Hexn.
Qed.

(** Validation raised: the message of the exception and the elapsed time. *)
Lemma safe_execute_invalid self kwargs s w1 e :
  setup_phase self s = (Ret (), w1) →
  validate_parameters (metadata self) kwargs = Raise e →
  safe_execute self kwargs s
  = (Ret {| success := false; result := VNone; error := Some (str e);
            result_metadata := None;
            execution_time := Some (elapsed s w1);
            timestamp := fst (datetime_now (snd (datetime_now w1))) |},
     {| _initialized := true;
        world := snd (datetime_now (snd (datetime_now w1))) |}).
Proof.
  intros Hs Hv. rewrite safe_execute_unfold.
  unfold try_except, bind at 1. rewrite initialize_setup_phase, Hs; simpl.
  unfold bind at 1, pure_call. rewrite Hv.
  rewrite (validate_parameters_raises_Exception _ _ _ Hv).
  unfold new_ToolResult, bind, now, in_world, ret, elapsed; simpl.
  destruct (datetime_now w1) as [t1 w2]; simpl.
  by destruct (datetime_now w2).
Qed.

(** [execute] raised an instance of [Exception]: the same shape. *)
Lemma safe_execute_raised self kwargs s w1 validated e w2 :
  setup_phase self s = (Ret (), w1) →
  validate_parameters (metadata self) kwargs = Ret validated →
  execute self validated w1 = (Raise e, w2) →
  is_Exception e = true →
  safe_execute self kwargs s
  = (Ret {| success := false; result := VNone; error := Some (str e);
            result_metadata := None;
            execution_time := Some (elapsed s w2);
            timestamp := fst (datetime_now (snd (datetime_now w2))) |},
     {| _initialized := true;
        world := snd (datetime_now (snd (datetime_now w2))) |}).
Proof.
  intros Hs Hv He Hexn. rewrite safe_execute_unfold.
  unfold try_except, bind at 1. rewrite initialize_setup_phase, Hs; simpl.
  unfold bind at 1, pure_call. rewrite Hv.
  unfold bind at 1, in_world at 1; simpl. rewrite He, Hexn.
  unfold new_ToolResult, bind, now, in_world, ret, elapsed; simpl.
  destruct (datetime_now w2) as [t1 w3]; simpl.
  by destruct (datetime_now w3).
Qed.

(** [execute] raised outside [Exception]: the handler does not take the
    exception, no envelope is built and no time is read. *)
Lemma safe_execute_escapes self kwargs s w1 validated e w2 :
  setup_phase self s = (Ret (), w1) →
  validate_parameters (metadata self) kwargs = Ret validated →
  execute self validated w1 = (Raise e, w2) →
  is_Exception e = false →
  safe_execute self kwargs s
  = (Raise e, {| _initialized := true; world := w2 |}).
Proof.
  intros Hs Hv He Hexn. rewrite safe_execute_unfold.
  unfold try_except, bind at 1. rewrite initialize_setup_phase, Hs; simpl.
  unfold bind at 1, pure_call. rewrite Hv.
  unfold bind at 1, in_world at 1; simpl. by rewrite He, Hexn.
Qed.

(** [execute] returned: its envelope, stamped. *)
Lemma safe_execute_returned self kwargs s w1 validated r w2 :
  setup_phase self s = (Ret (), w1) →
  validate_parameters (metadata self) kwargs = Ret validated →
  execute self validated w1 = (Ret r, w2) →
  safe_execute self kwargs s
  = (Ret (set_execution_time r (elapsed s w2)),
     {| _initialized := true; world := snd (datetime_now w2) |}).
Proof.
  intros Hs Hv He. rewrite safe_execute_unfold.
  unfold try_except, bind at 1. rewrite initialize_setup_phase, Hs; simpl.
  unfold bind at 1, pure_call. rewrite Hv.
  unfold bind at 1, in_world at 1; simpl. rewrite He.
  unfold bind, now, in_world, ret, elapsed; simpl.
  by destruct (datetime_now w2) as [t1 w3].
Qed.

End ToolFacts.

(** Splits a call of [safe_execute] into its six paths and rewrites the
    call with the lemma of the path. *)
Ltac safe_execute_paths self kwargs s :=
  let Hs := fresh "Hsetup" in
  let Hv := fresh "Hvalid" in
  let He := fresh "Hexec" in
  let Hx := fresh "Hexn" in
  destruct (setup_phase self s) as [[[]|?e] ?w1] eqn:Hs;
  [ destruct (validate_parameters (metadata self) kwargs) as [?v|?e] eqn:Hv;
    [ match goal with
      | v : gmap string pyval, w1 : _ |- _ =>
          destruct (execute self v w1) as [[?r|?e] ?w2] eqn:He;
          [ rewrite (safe_execute_returned _ _ _ _ _ _ _ Hs Hv He)
          | match type of He with
            | _ = (Raise ?e, _) =>
                destruct (is_Exception e) eqn:Hx;
                [ rewrite (safe_execute_raised _ _ _ _ _ _ _ Hs Hv He Hx)
                | rewrite (safe_execute_escapes _ _ _ _ _ _ _ Hs Hv He Hx) ]
            end ]
      end
    | rewrite (safe_execute_invalid _ _ _ _ _ Hs Hv) ]
  | match type of Hs with
    | _ = (Raise ?e, _) =>
        destruct (is_Exception e) eqn:Hx;
        [ rewrite (safe_execute_setup_failed _ kwargs _ _ _ Hs Hx)
        | rewrite (safe_execute_setup_escapes _ kwargs _ _ _ Hs Hx) ]
    end ].

Section CallFacts.
Context {W : Type} `{Environment W} `{PyBuiltins}.
Implicit Types (self : MCPTool W) (s : ToolState W)
  (kwargs : gmap string pyval).

(** A call of [safe_execute] raises only what a hook raised outside
    [Exception]. *)
Lemma safe_execute_raises self kwargs s e s' :
  safe_execute self kwargs s = (Raise e, s') →
  is_Exception e = false
  ∧ ((∃ w1, setup_phase self s = (Raise e, w1))
     ∨ (∃ w1 validated w2,
          setup_phase self s = (Ret (), w1)
          ∧ validate_parameters (metadata self) kwargs = Ret validated
          ∧ execute self validated w1 = (Raise e, w2))).
Proof.
  safe_execute_paths self kwargs s; intros [= <- <-]; (split; [done|]);
    [right|left]; eauto 10.
Qed.

Lemma setup_phase_done self s :
  _initialized s = true → setup_phase self s = (Ret (), after_start s).
Proof. intros Hi. unfold setup_phase. by rewrite Hi. Qed.

Lemma initialize_keeps_flag self s :
  _initialized s = true → _initialized (snd (initialize self s)) = true.
Proof. intros Hi. by rewrite initialize_done. Qed.

Lemma safe_execute_keeps_flag self kwargs s :
  _initialized s = true →
  _initialized (snd (safe_execute self kwargs s)) = true.
Proof.
  intros Hi. pose proof (setup_phase_done self s Hi) as Hs.
  safe_execute_paths self kwargs s; simpl; congruence.
Qed.

Lemma run_calls_keep_flag self s cs :
  _initialized s = true → _initialized (run_calls self s cs) = true.
Proof.
  revert s. induction cs as [|c cs IH]; intros s Hi; simpl; [done|].
  apply IH. destruct c; simpl.
  - by apply initialize_keeps_flag.
  - by apply safe_execute_keeps_flag.
Qed.

(** C1, as the code has it.  No instance of [Exception] leaves
    [safe_execute]: what the call raises is an exception outside
    [Exception] that [_initialize] or [execute] raised.  When validation
    raised, or [execute] raised an instance of [Exception], the call
    returns an envelope with [success=False] and the text of the exception
    as its [error]; when the setup of [initialize] raised an instance of
    [Exception], the envelope has [success=False] and the fixed text of the
    initialization failure, not the text of the exception.  An exception
    outside [Exception] raised by [_initialize] or by [execute] is taken by
    neither handler and is raised by [safe_execute] to its caller. *)
Theorem safe_execute_catches_Exception self kwargs s :
  (∀ e s', safe_execute self kwargs s = (Raise e, s') →
     is_Exception e = false
     ∧ ((∃ w1, setup_phase self s = (Raise e, w1))
        ∨ (∃ w1 validated w2,
             setup_phase self s = (Ret (), w1)
             ∧ validate_parameters (metadata self) kwargs = Ret validated
             ∧ execute self validated w1 = (Raise e, w2))))
  ∧ (∀ e w1, setup_phase self s = (Raise e, w1) →
       if is_Exception e then
         ∃ r s', safe_execute self kwargs s = (Ret r, s')
                 ∧ success r = false ∧ error r = Some "工具初始化失败"
       else
         safe_execute self kwargs s
         = (Raise e, {| _initialized := false; world := w1 |}))
  ∧ (∀ w1 e, setup_phase self s = (Ret (), w1) →
       validate_parameters (metadata self) kwargs = Raise e →
       ∃ r s', safe_execute self kwargs s = (Ret r, s')
               ∧ success r = false ∧ error r = Some (str e))
  ∧ (∀ w1 validated e w2, setup_phase self s = (Ret (), w1) →
       validate_parameters (metadata self) kwargs = Ret validated →
       execute self validated w1 = (Raise e, w2) →
       if is_Exception e then
         ∃ r s', safe_execute self kwargs s = (Ret r, s')
                 ∧ success r = false ∧ error r = Some (str e)
       else
         safe_execute self kwargs s
         = (Raise e, {| _initialized := true; world := w2 |})).
Proof.
  split; [apply safe_execute_raises|]. split; [|split].
  - intros e w1 Hs. destruct (is_Exception e) eqn:Hx.
    + rewrite (safe_execute_setup_failed _ kwargs _ _ _ Hs Hx). eauto.
    + by apply safe_execute_setup_escapes.
  - intros w1 e Hs Hv. rewrite (safe_execute_invalid _ _ _ _ _ Hs Hv). eauto.
  - intros w1 validated e w2 Hs Hv He. destruct (is_Exception e) eqn:Hx.
    + rewrite (safe_execute_raised _ _ _ _ _ _ _ Hs Hv He Hx). eauto.
    + by apply safe_execute_escapes with w1 validated.
Qed.

(** The elapsed time is stamped on every path but the one where setup
    failed. *)
Lemma safe_execute_execution_time self kwargs s r s' :
  safe_execute self kwargs s = (Ret r, s') →
  match setup_phase self s with
  | (Raise _, _) => execution_time r = None
  | (Ret _, w1) =>
      match validate_parameters (metadata self) kwargs with
      | Raise _ => execution_time r = Some (elapsed s w1)
      | Ret validated =>
          execution_time r
          = Some (elapsed s (snd (execute self validated w1)))
      end
  end.
Proof.
  safe_execute_paths self kwargs s; intros [= <- <-]; simpl;
    try rewrite Hexec; done.
Qed.

(** C4, as the code has it.  When [initialize] returns, it returns the
    flag it leaves.  When the tool is initialized it returns [True] at once
    and changes nothing, so setup is not run again.  Otherwise it runs
    [_initialize] once: when that returns it sets the flag and returns
    [True]; when that raises an instance of [Exception] it returns [False],
    when that raises outside [Exception] it raises the same exception, and
    in both cases the flag stays [False].  After a setup that raised, the
    next call of [initialize] runs [_initialize] again, in the world the
    failed attempt left, and so does the next call of [safe_execute], after
    its first clock reading: when this attempt returns, the tool is
    initialized after the call and [execute] has been called with the
    validated arguments; when it raises again the call reports the
    initialization failure, or raises, in the world this attempt left.
    Once the flag is [True] it stays [True] through every later call, so it
    goes from [False] to [True] at most once. *)
Theorem initialize_idempotent_and_retriable self s :
  (∀ b s', initialize self s = (Ret b, s') → b = _initialized s')
  ∧ (_initialized s = true → initialize self s = (Ret true, s))
  ∧ (∀ w, _initialized s = false →
       _initialize self (world s) = (Ret (), w) →
       initialize self s = (Ret true, {| _initialized := true; world := w |}))
  ∧ (∀ e w, _initialized s = false →
       _initialize self (world s) = (Raise e, w) →
       let s1 := {| _initialized := false; world := w |} in
       initialize self s
       = (if is_Exception e then Ret false else Raise e, s1)
       ∧ initialize self s1
         = match _initialize self w with
           | (Ret _, w') => (Ret true, {| _initialized := true; world := w' |})
           | (Raise e', w') =>
               (if is_Exception e' then Ret false else Raise e',
                {| _initialized := false; world := w' |})
           end
       ∧ ∀ kwargs,
           match _initialize self (after_start s1) with
           | (Ret _, w1) =>
               _initialized (snd (safe_execute self kwargs s1)) = true
               ∧ ∀ validated r w2,
                   validate_parameters (metadata self) kwargs
                   = Ret validated →
                   execute self validated w1 = (Ret r, w2) →
                   safe_execute self kwargs s1
                   = (Ret (set_execution_time r (elapsed s1 w2)),
                      {| _initialized := true;
                         world := snd (datetime_now w2) |})
           | (Raise e', w1) =>
               safe_execute self kwargs s1
               = if is_Exception e' then
                   (Ret {| success := false; result := VNone;
                           error := Some "工具初始化失败";
                           result_metadata := None; execution_time := None;
                           timestamp := fst (datetime_now w1) |},
                    {| _initialized := false;
                       world := snd (datetime_now w1) |})
                 else (Raise e', {| _initialized := false; world := w1 |})
           end)
  ∧ (∀ cs cs', _initialized (run_calls self s cs) = true →
       _initialized (run_calls self s (cs ++ cs')) = true).
Proof.
  split; [|split; [|split; [|split]]].
  - intros b s'. destruct (_initialized s) eqn:Hi.
    + rewrite initialize_done by done. by intros [= <- <-].
    + rewrite initialize_first by done.
      destruct (_initialize self (world s)) as [[[]|e] w];
        [|destruct (is_Exception e)]; by intros [= <- <-].
  - apply initialize_done.
  - intros w Hi Hw. rewrite initialize_first by done. by rewrite Hw.
  - intros e w Hi He s1. split; [|split].
    + rewrite initialize_first by done. rewrite He.
      by destruct (is_Exception e).
    + rewrite initialize_first by done. unfold s1; simpl.
      destruct (_initialize self w) as [[[]|e'] w']; [done|].
      by destruct (is_Exception e').
    + intros kwargs.
      assert (setup_phase self s1 = _initialize self (after_start s1))
        as Hs by done.
      destruct (_initialize self (after_start s1)) as [[[]|e'] w1].
      * split.
        -- safe_execute_paths self kwargs s1; try done; congruence.
        -- intros validated r w2 Hv Hr.
           by apply safe_execute_returned with w1 validated.
      * destruct (is_Exception e') eqn:Hx.
        -- by apply safe_execute_setup_failed with e'.
        -- by apply safe_execute_setup_escapes.
  - intros cs cs' Hi. unfold run_calls. rewrite foldl_app.
    by apply run_calls_keep_flag.
Qed.

(** C10.  Arguments under undeclared names are dropped without an error:
    validation, and with it the whole of [safe_execute], gives the same
    outcome as on the declared arguments alone; the validated mapping has
    declared names as its only keys; and the mapping [execute] is called
    with is the validated one. *)
Theorem undeclared_arguments_are_dropped self kwargs s :
  validate_parameters (metadata self) kwargs
  = validate_parameters (metadata self) (declared_only (metadata self) kwargs)
  ∧ safe_execute self kwargs s
    = safe_execute self (declared_only (metadata self) kwargs) s
  ∧ (∀ validated k,
       validate_parameters (metadata self) kwargs = Ret validated →
       is_Some (validated !! k) → k ∈ declared_names (metadata self))
  ∧ (∀ w1 validated, setup_phase self s = (Ret (), w1) →
       validate_parameters (metadata self) kwargs = Ret validated →
       safe_execute self kwargs s
       = match execute self validated w1 with
         | (Ret r, w2) =>
             (Ret (set_execution_time r (elapsed s w2)),
              {| _initialized := true; world := snd (datetime_now w2) |})
         | (Raise e, w2) =>
             if is_Exception e then
               (Ret {| success := false; result := VNone;
                       error := Some (str e); result_metadata := None;
                       execution_time := Some (elapsed s w2);
                       timestamp :=
                         fst (datetime_now (snd (datetime_now w2))) |},
                {| _initialized := true;
                   world := snd (datetime_now (snd (datetime_now w2))) |})
             else (Raise e, {| _initialized := true; world := w2 |})
         end).
Proof.
  split; [|split; [|split]].
  - apply validate_parameters_declared_only.
  - unfold safe_execute.
    by rewrite <- validate_parameters_declared_only.
  - intros validated k. apply validate_parameters_keys.
  - intros w1 validated Hs Hv.
    destruct (execute self validated w1) as [[r|e] w2] eqn:He.
    + by apply safe_execute_returned with w1 validated.
    + destruct (is_Exception e) eqn:Hx.
      * by apply safe_execute_raised with w1 validated.
      * by apply safe_execute_escapes with w1 validated.
Qed.
End CallFacts.

(** ** Properties of the registry *)

Section RegistryFacts.
Context {W : Type}.
Implicit Types (tool : MCPTool W) (r : ToolRegistry W) (n c : string).

Lemma register_tools tool r :
  _tools (register tool r) = <[tool_name (metadata tool) := tool]> (_tools r).
Proof. done. Qed.

Lemma get_tool_register tool r n :
  get_tool (register tool r) n
  = if decide (tool_name (metadata tool) = n) then Some tool
    else get_tool r n.
Proof. unfold get_tool. rewrite register_tools. apply lookup_insert. Qed.

(** The list of a category after a registration. *)
Lemma category_members_register tool r c :
  category_members (register tool r) c
  = if decide (category (metadata tool) = c) then
      if bool_decide (tool_name (metadata tool) ∈ category_members r c)
      then category_members r c
      else (category_members r c ++ [tool_name (metadata tool)])%list
    else category_members r c.
Proof.
  unfold category_members, register; simpl.
  set (tc := category (metadata tool)). set (tn := tool_name (metadata tool)).
  destruct (decide (tc = c)) as [<-|Hne].
  - destruct (_categories r !! tc) as [l|] eqn:Hl.
    + rewrite lookup_total_alt, Hl; simpl.
      case_bool_decide; [by rewrite Hl|]. by rewrite lookup_insert_eq.
    + rewrite lookup_total_alt, lookup_insert_eq; simpl.
      by rewrite lookup_insert_eq.
  - destruct (_categories r !! tc) as [l|] eqn:Hl.
    + case_bool_decide; [done|]. by rewrite lookup_insert_ne.
    + case_bool_decide; rewrite ?lookup_insert_ne by done; done.
Qed.

(** A registration removes no name from any category. *)
Lemma category_members_register_mono tool r c n :
  n ∈ category_members r c → n ∈ category_members (register tool r) c.
Proof.
  rewrite category_members_register. intros Hn.
  repeat case_match; try done. apply elem_of_app. by left.
Qed.

Lemma category_members_register_own tool r :
  tool_name (metadata tool)
  ∈ category_members (register tool r) (category (metadata tool)).
Proof.
  rewrite category_members_register.
  rewrite decide_True by done. case_bool_decide; [done|].
  apply elem_of_app. right. left.
Qed.

Lemma indexes_consistent_new : indexes_consistent (@new_registry W).
Proof.
  intros c. unfold category_members; simpl. rewrite lookup_empty.
  split; [constructor|]. intros n Hn. by apply not_elem_of_nil in Hn.
Qed.

Lemma indexes_consistent_register tool r :
  indexes_consistent r → indexes_consistent (register tool r).
Proof.
  intros Hr c. destruct (Hr c) as [Hnd Hreg].
  rewrite category_members_register. split.
  - repeat case_match; try done.
    apply NoDup_app. split; [done|]. split; [|apply NoDup_singleton].
    intros n Hn Hn'. apply list_elem_of_singleton in Hn' as ->.
    by case_bool_decide.
  - intros n Hn. rewrite get_tool_register.
    destruct (decide (tool_name (metadata tool) = n)); [by eexists|].
    apply Hreg. repeat case_match; try done.
    apply elem_of_app in Hn as [Hn|Hn]; [done|].
    by apply list_elem_of_singleton in Hn.
Qed.

Lemma indexes_consistent_register_all tools r :
  indexes_consistent r → indexes_consistent (register_all tools r).
Proof.
  revert r. induction tools as [|tool tools IH]; intros r Hr; simpl; [done|].
  apply IH. by apply indexes_consistent_register.
Qed.

Lemma get_tool_register_all_None tools r n :
  get_tool r n = None →
  n ∉ (λ tool, tool_name (metadata tool)) <$> tools →
  get_tool (register_all tools r) n = None.
Proof.
  revert r. induction tools as [|tool tools IH]; intros r Hr Hn; simpl; [done|].
  apply not_elem_of_cons in Hn as [Hne Hn].
  apply IH; [|done]. rewrite get_tool_register. by rewrite decide_False.
Qed.

Lemma categories_register_None tool r c :
  _categories r !! c = None → category (metadata tool) ≠ c →
  _categories (register tool r) !! c = None.
Proof.
  intros Hc Hne. unfold register; simpl.
  destruct (_categories r !! category (metadata tool));
    case_bool_decide; rewrite ?lookup_insert_ne by done; done.
Qed.

Lemma categories_register_all_None tools r c :
  _categories r !! c = None →
  c ∉ (λ tool, category (metadata tool)) <$> tools →
  _categories (register_all tools r) !! c = None.
Proof.
  revert r. induction tools as [|tool tools IH]; intros r Hr Hn; simpl; [done|].
  apply not_elem_of_cons in Hn as [Hne Hn].
  apply IH; [|done]. by apply categories_register_None.
Qed.

(** With consistent indexes the comprehension of [get_tools_by_category]
    meets no missing key. *)
Lemma comprehension_total r (names : list string) :
  (∀ n, n ∈ names → is_Some (get_tool r n)) →
  ∃ tools, comprehension (tools_getitem r) names = Ret tools
           ∧ length tools = length names.
Proof.
  induction names as [|n names IH]; intros Hreg; simpl; [by exists []|].
  destruct (Hreg n) as [tool Ht]; [left|].
  unfold tools_getitem at 1. unfold get_tool in Ht. rewrite Ht.
  destruct IH as (tools & -> & Hlen).
  { intros n' Hn'. apply Hreg. by right. }
  exists (tool :: tools). simpl. by rewrite Hlen.
Qed.
Lemma get_tools_by_category_total r c :
  indexes_consistent r → ∃ tools, get_tools_by_category r c = Ret tools.
Proof.
  intros Hr. destruct (Hr c) as [_ Hreg].
  destruct (comprehension_total r (category_members r c) Hreg)
    as (tools & Ht & _).
  by exists tools.
Qed.

(** A lookup by category returns, for each name listed under the
    category, the tool the name index holds for it. *)
Lemma get_tools_by_category_elem r c n tool :
  indexes_consistent r →
  n ∈ category_members r c → get_tool r n = Some tool →
  ∃ found, get_tools_by_category r c = Ret found ∧ tool ∈ found.
Proof.
  intros Hr Hn Hget. destruct (Hr c) as [_ Hreg].
  unfold get_tools_by_category. fold (category_members r c).
  induction (category_members r c) as [|n' names IH]; simpl.
  { by apply not_elem_of_nil in Hn. }
  destruct (Hreg n') as [tool' Ht']; [left|].
  unfold tools_getitem at 1. unfold get_tool in Ht'. rewrite Ht'.
  destruct (comprehension_total r names) as (rest & Hrest & _).
  { intros n'' Hn''. apply Hreg. by right. }
  rewrite Hrest. exists (tool' :: rest). split; [done|].
  apply elem_of_cons in Hn as [->|Hn].
  - unfold get_tool in Hget. rewrite Hget in Ht'. injection Ht' as ->. left.
  - right. destruct IH as (found & Hfound & Hin); [done| |].
    + intros n'' Hn''. apply Hreg. by right.
    + rewrite Hrest in Hfound. by injection Hfound as ->.
Qed.

(** C5, as the code has it.  After two tools of the same name are
    registered, the name index holds the second tool, the name is listed
    under the category of the second tool, every listed name is a
    registered name and no list repeats a name, so a lookup by category
    raises nothing; and the name is still listed under the category of the
    first tool, since [register] removes no membership, so that a lookup
    of the category of the first tool returns the second tool, as a lookup
    of the category of the second tool does. *)
Theorem reregistration_keeps_old_category
    (earlier : list (MCPTool W)) (first second : MCPTool W) :
  tool_name (metadata first) = tool_name (metadata second) →
  let r :=
    register second (register first (register_all earlier new_registry)) in
  let n := tool_name (metadata second) in
  get_tool r n = Some second
  ∧ n ∈ category_members r (category (metadata second))
  ∧ n ∈ category_members r (category (metadata first))
  ∧ indexes_consistent r
  ∧ (∀ c, ∃ tools, get_tools_by_category r c = Ret tools)
  ∧ (∃ tools, get_tools_by_category r (category (metadata first)) = Ret tools
              ∧ second ∈ tools)
  ∧ (∃ tools, get_tools_by_category r (category (metadata second)) = Ret tools
              ∧ second ∈ tools).
Proof.
  intros Hname r n.
  assert (indexes_consistent r) as Hr.
  { do 2 apply indexes_consistent_register.
    apply indexes_consistent_register_all, indexes_consistent_new. }
  assert (get_tool r n = Some second) as Hget.
  { unfold r, n. rewrite get_tool_register. by rewrite decide_True. }
  assert (n ∈ category_members r (category (metadata second))) as Hnew
    by apply category_members_register_own.
  assert (n ∈ category_members r (category (metadata first))) as Hold.
  { apply category_members_register_mono. unfold n. rewrite <- Hname.
    apply category_members_register_own. }
  split; [done|]. split; [done|]. split; [done|]. split; [done|].
  split; [|split].
  - intros c. by apply get_tools_by_category_total.
  - by apply get_tools_by_category_elem with n.
  - by apply get_tools_by_category_elem with n.
Qed.

(** C8.  A lookup reports absence by its value and raises nothing: in the
    registry reached by any registrations, [get_tool] of a name that was
    never registered is [None], [get_tools_by_category] of a category that
    no registered tool has is the empty list, and [get_tools_by_category]
    returns a list for every category; in any registry whatever, a
    category that is not a key of the category index gives the empty
    list. *)
Theorem lookups_signal_absence (tools : list (MCPTool W)) n c :
  let r := register_all tools new_registry in
  (n ∉ (λ tool, tool_name (metadata tool)) <$> tools → get_tool r n = None)
  ∧ (c ∉ (λ tool, category (metadata tool)) <$> tools →
     get_tools_by_category r c = Ret [])
  ∧ (∃ found, get_tools_by_category r c = Ret found)
  ∧ (∀ r' : ToolRegistry W,
       _categories r' !! c = None → get_tools_by_category r' c = Ret []).
Proof.
  intros r.
  assert (∀ r' : ToolRegistry W,
            _categories r' !! c = None → get_tools_by_category r' c = Ret [])
    as Hunknown.
  { intros r' Hc. unfold get_tools_by_category. by rewrite Hc. }
  split; [|split; [|split]].
  - intros Hn. by apply get_tool_register_all_None.
  - intros Hc. apply Hunknown. by apply categories_register_all_None.
  - apply get_tools_by_category_total.
    apply indexes_consistent_register_all, indexes_consistent_new.
  - done.
Qed.
End RegistryFacts.

(** ** Properties of the schema exporter *)

Section SchemaFacts.
Context {W : Type}.
Implicit Types (param : ToolParameter) (params : list ToolParameter)
  (k : string).

Lemma properties_lookup_acc params (d : gmap string (gmap string pyval)) k :
  foldl add_property d params !! k
  = match last_named k params with
    | Some param => Some (property_schema param)
    | None => d !! k
    end.
Proof.
  revert d. unfold last_named.
  induction params as [|p params IH]; intros d; simpl; [done|].
  rewrite IH, filter_cons. unfold add_property.
  destruct (decide (name p = k)) as [Hk|Hk].
  - rewrite last_cons.
    destruct (last (filter (λ param, name param = k) params)); [done|].
    by rewrite <- Hk, lookup_insert_eq.
  - destruct (last (filter (λ param, name param = k) params)); [done|].
    by rewrite lookup_insert_ne.
Qed.

Lemma properties_lookup params k :
  properties_of params !! k = property_schema <$> last_named k params.
Proof.
  unfold properties_of. rewrite properties_lookup_acc, lookup_empty.
  by destruct (last_named k params).
Qed.

Lemma properties_dom_acc params (d : gmap string (gmap string pyval)) :
  dom (foldl add_property d params) = dom d ∪ list_to_set (name <$> params).
Proof.
  revert d. induction params as [|p params IH]; intros d; simpl.
  - set_solver.
  - rewrite IH. unfold add_property. rewrite dom_insert_L. set_solver.
Qed.

Lemma properties_dom params :
  dom (properties_of params) = list_to_set (name <$> params).
Proof. unfold properties_of. rewrite properties_dom_acc. set_solver. Qed.

Lemma properties_size params :
  NoDup (name <$> params) → size (properties_of params) = length params.
Proof.
  intros Hnd. rewrite <- size_dom, properties_dom.
  rewrite size_list_to_set by done. by rewrite length_fmap.
Qed.

Lemma last_named_NoDup params param :
  NoDup (name <$> params) → param ∈ params →
  last_named (name param) params = Some param.
Proof.
  unfold last_named. induction params as [|p params IH]; simpl.
  - intros _ Hin. by apply elem_of_nil in Hin.
  - intros [Hp Hnd]%NoDup_cons Hin.
    rewrite filter_cons.
    assert (filter (λ q, name q = name p) params = []) as Hnone.
    { apply elem_of_nil_inv. intros q [Hq Hin']%list_elem_of_filter.
      apply Hp. rewrite <- Hq. by apply list_elem_of_fmap_2. }
    apply elem_of_cons in Hin as [->|Hin].
    + rewrite decide_True by done. by rewrite Hnone.
    + destruct (decide (name p = name param)) as [Heq|Hne].
      * exfalso. apply Hp. rewrite Heq. by apply list_elem_of_fmap_2.
      * by apply IH.
Qed.

Lemma required_of_spec params k :
  k ∈ required_of params
  ↔ ∃ param, param ∈ params ∧ name param = k ∧ required param = true.
Proof.
  unfold required_of. rewrite list_elem_of_fmap. split.
  - intros (param & -> & [Hr Hin]%list_elem_of_filter). eauto.
  - intros (param & Hin & <- & Hr). exists param. split; [done|].
    by apply list_elem_of_filter.
Qed.

(** The keys of the dictionary of one property. *)
Lemma property_schema_keys param :
  property_schema param !! "type" = Some (VStr (type param))
  ∧ property_schema param !! "description" = Some (VStr (description param))
  ∧ property_schema param !! "enum"
    = match enum param with
      | Some (v :: l) => Some (VList (v :: l))
      | _ => None
      end
  ∧ property_schema param !! "default"
    = match default param with
      | VNone => None
      | d => Some d
      end
  ∧ dom (property_schema param)
    ⊆ {["type"; "description"; "enum"; "default"]}.
Proof.
  unfold property_schema, unpack, truthy, enum_values.
  destruct (enum param) as [[|v l]|], (default param); simpl;
    (repeat split; [reflexivity..|]);
    rewrite ?dom_union_L, ?dom_insert_L, ?dom_singleton_L, ?dom_empty_L;
    set_solver.
Qed.
(** C6, as the code has it.  The exported schema depends on the metadata
    alone, not on the state of the tool.  It is an object schema whose
    properties are keyed by parameter name: a name has the property of the
    last descriptor declared under it, so when the names are distinct there
    is exactly one property per descriptor.  A property carries the type
    and the description, the enum exactly when the descriptor has a
    non-empty one, the default exactly when the descriptor has one, and
    nothing else.  The required list holds exactly the names of the
    descriptors whose required flag is true. *)
Theorem schema_is_derived_from_metadata
    (self : MCPTool W) (s s' : ToolState W) :
  let schema := to_langchain_tool_schema self s in
  let params := parameters (metadata self) in
  to_langchain_tool_schema self s' = schema
  ∧ (∀ other : MCPTool W, metadata other = metadata self →
       to_langchain_tool_schema other s' = schema)
  ∧ schema_type (schema_parameters schema) = "object"
  ∧ (∀ k, properties (schema_parameters schema) !! k
          = property_schema <$> last_named k params)
  ∧ dom (properties (schema_parameters schema))
    = list_to_set (name <$> params)
  ∧ (NoDup (name <$> params) →
       size (properties (schema_parameters schema)) = length params
       ∧ ∀ param, param ∈ params →
           properties (schema_parameters schema) !! name param
           = Some (property_schema param))
  ∧ (∀ k, k ∈ required_names (schema_parameters schema)
          ↔ ∃ param, param ∈ params ∧ name param = k
                     ∧ required param = true)
  ∧ ∀ param,
      property_schema param !! "type" = Some (VStr (type param))
      ∧ property_schema param !! "description"
        = Some (VStr (description param))
      ∧ property_schema param !! "enum"
        = match enum param with
          | Some (v :: l) => Some (VList (v :: l))
          | _ => None
          end
      ∧ property_schema param !! "default"
        = match default param with
          | VNone => None
          | d => Some d
          end
      ∧ dom (property_schema param)
        ⊆ {["type"; "description"; "enum"; "default"]}.
Proof.
  intros schema params. unfold schema, to_langchain_tool_schema; simpl.
  split; [done|]. split; [by intros other ->|]. split; [done|].
  split; [apply properties_lookup|]. split; [apply properties_dom|].
  split.
  { intros Hnd. split; [by apply properties_size|].
    intros param Hin. rewrite properties_lookup.
    by rewrite last_named_NoDup. }
  split; [apply required_of_spec|]. apply property_schema_keys.
Qed.
End SchemaFacts.

(** ** The scenario of the specification *)

Section Scenario.
Context {W : Type} `{Environment W} `{PyBuiltins}.

Lemma setup_phase_echo (s : ToolState W) :
  setup_phase echo s = (Ret (), after_start s).
Proof. unfold setup_phase. by destruct (_initialized s). Qed.

Lemma echo_execute_text (kwargs : gmap string pyval) (text : pyval) (w : W) :
  kwargs !! "text" = Some text →
  execute echo kwargs w
  = (Ret {| success := true; result := text; error := None;
            result_metadata := None; execution_time := None;
            timestamp := fst (datetime_now w) |},
     snd (datetime_now w)).
Proof.
  intros Ht. simpl. unfold echo_execute. rewrite Ht.
  by destruct (datetime_now w).
Qed.

Lemma echo_validates (text : pyval) :
  is_None text = false →
  validate_parameters (metadata (@echo W _)) {["text" := text]}
  = Ret {["text" := text]}.
Proof.
  intros Ht. unfold validate_parameters; simpl.
  unfold validate_step, dict_get; simpl.
  rewrite lookup_singleton_eq, Ht; simpl. by rewrite Ht.
Qed.

(** C7, as the code has it.  The tool [echo] can be registered and looked
    up.  Called with no arguments it returns [success=False] with the error
    text the code raises for the missing parameter [text], which is the
    Chinese message of [validate_parameters].  Called with [text="hi"] it
    returns [success=True] and the result ["hi"], and its execution time is
    the clock reading at exit minus the reading at entry, which is
    non-negative when the clock was not set back in between. *)
Theorem echo_scenario (s : ToolState W) :
  get_tool (register echo new_registry) "echo" = Some echo
  ∧ (∃ r s', safe_execute echo ∅ s = (Ret r, s')
             ∧ success r = false
             ∧ error r = Some "缺少必需参数: text")
  ∧ (∃ r s', safe_execute echo {["text" := VStr "hi"]} s = (Ret r, s')
             ∧ success r = true ∧ result r = VStr "hi" ∧ error r = None
             ∧ let exit_world := snd (datetime_now (after_start s)) in
               execution_time r = Some (elapsed s exit_world)
               ∧ ((start_reading s ≤ fst (datetime_now exit_world))%Z →
                  (0 ≤ elapsed s exit_world)%Z)).
Proof.
  split; [|split].
  - rewrite get_tool_register. by rewrite decide_True.
  - erewrite safe_execute_invalid;
      [|apply setup_phase_echo|vm_compute; reflexivity].
    eexists _, _. split; [reflexivity|]. done.
  - rewrite (safe_execute_returned echo _ s (after_start s)
               {["text" := VStr "hi"]} _ _ (setup_phase_echo s)
               (echo_validates (VStr "hi") eq_refl)
               (echo_execute_text _ _ _ (lookup_singleton_eq _ _))).
    eexists _, _. split; [reflexivity|]. simpl.
    repeat split. unfold elapsed. lia.
Qed.
End Scenario.

(** ** The code on concrete inputs *)

Section Examples.
#[local] Existing Instance reference_builtins.
#[local] Existing Instance sim_environment.

(** C2.  [GoogleSearchTool] on a fresh installation, where neither Google
    setting is configured: [_initialize] raises, [initialize] returns
    [False], and [safe_execute] returns through its early [return], whose
    envelope has no [execution_time], whatever the arguments and whatever
    the body of [execute]. *)
Theorem safe_execute_untimed_when_setup_fails
    (search : gmap string pyval → SimWorld → outcome ToolResult * SimWorld)
    (kwargs : gmap string pyval) :
  fst (safe_execute (GoogleSearchTool search) kwargs (new_tool unconfigured))
  = Ret {| success := false; result := VNone;
           error := Some "工具初始化失败"; result_metadata := None;
           execution_time := None; timestamp := 250 |}.
Proof.
  erewrite safe_execute_setup_failed;
    [|vm_compute; reflexivity|reflexivity].
  reflexivity.
Qed.

(** C1 fails as stated: the exception raised by the setup of
    [GoogleSearchTool] has one text, the envelope reports another. *)
Lemma setup_error_text_is_not_reported :
  let tool := GoogleSearchTool offline_search in
  let s := new_tool unconfigured in
  ∃ w1 r s',
    setup_phase tool s = (Raise (ValueError "Google API密钥或CSE ID未配置"), w1)
    ∧ safe_execute tool {["query" := VStr "rocq"]} s = (Ret r, s')
    ∧ error r = Some "工具初始化失败"
    ∧ error r ≠ Some (str (ValueError "Google API密钥或CSE ID未配置")).
Proof.
  intros tool s. eexists _, _, _.
  split; [vm_compute; reflexivity|].
  split; [vm_compute; reflexivity|].
  split; [reflexivity|]. simpl. discriminate.
Qed.

(** C4 fails as stated: a setup that is cancelled while it waits fails,
    yet [initialize] does not return [False]; it raises the
    [CancelledError] to its caller, which none of its handlers takes. *)
Lemma cancelled_setup_escapes_initialize :
  let tool := with_initialize cancelled_initialize echo in
  let s := new_tool unconfigured in
  _initialize tool (world s) = (Raise (CancelledError EmptyString), world s)
  ∧ is_Exception (CancelledError EmptyString) = false
  ∧ initialize tool s = (Raise (CancelledError EmptyString), s)
  ∧ fst (initialize tool s) ≠ Ret false.
Proof.
  intros tool s.
  split; [reflexivity|]. split; [reflexivity|]. split; [reflexivity|].
  discriminate.
Qed.

(** C5 fails as stated: [echo] registered under [test], then again under
    [other], stays listed under [test], and a lookup of [test] returns the
    tool whose category is [other]. *)
Lemma reregistration_leaves_stale_membership :
  let first : MCPTool SimWorld := echo in
  let second := recategorized "other" first in
  let r := register second (register first new_registry) in
  get_tool r "echo" = Some second
  ∧ category (metadata second) = "other"
  ∧ category_members r "other" = ["echo"]
  ∧ category_members r "test" = ["echo"]
  ∧ get_tools_by_category r "test" = Ret [second].
Proof.
  intros first second r.
  assert (get_tool r "echo" = Some second) as Hget
    by (unfold r; rewrite get_tool_register; by rewrite decide_True).
  repeat split; done.
Qed.

(** C6 fails as stated: a descriptor whose enum is the empty list has an
    enum, yet its property has no [enum] key; and three descriptors of
    which two share a name give two properties, the shared name carrying
    the type of the descriptor declared last. *)
Lemma schema_omits_empty_enum_and_merges_names :
  let schema := to_langchain_tool_schema irregular (new_tool unconfigured) in
  let props := properties (schema_parameters schema) in
  (enum <$> parameters irregular_metadata !! 0%nat) = Some (Some [])
  ∧ (props !! "mode" ≫= (.!! "enum")) = None
  ∧ length (parameters irregular_metadata) = 3%nat
  ∧ size props = 2%nat
  ∧ (props !! "level" ≫= (.!! "type")) = Some (VStr "integer").
Proof. vm_compute. done. Qed.

(** C7 fails as stated: the error text for the missing parameter is the
    message of the code, not the English sentence; and when the wall clock
    is set back during the call the execution time is negative. *)
Lemma echo_error_text_and_negative_time :
  (∃ r s', safe_execute echo ∅ (new_tool unconfigured) = (Ret r, s')
           ∧ error r = Some "缺少必需参数: text"
           ∧ error r ≠ Some "missing parameter: text")
  ∧ (∃ r s', safe_execute echo {["text" := VStr "hi"]}
               (new_tool clock_set_back) = (Ret r, s')
             ∧ execution_time r = Some (-200)).
Proof.
  split; eexists _, _.
  - split; [vm_compute; reflexivity|]. split; [reflexivity|]. discriminate.
  - split; [vm_compute; reflexivity|]. reflexivity.
Qed.
(** The theorems above at concrete inputs. *)

Lemma safe_execute_catches_Exception_witness :
  let s := new_tool unconfigured in
  (∃ r s', safe_execute echo ∅ s = (Ret r, s')
           ∧ success r = false ∧ error r = Some "缺少必需参数: text")
  ∧ safe_execute (with_execute cancelled_execute echo)
      {["text" := VStr "hi"]} s
    = (Raise (CancelledError EmptyString),
       {| _initialized := true; world := after_start s |}).
Proof.
  intros s. split.
  - destruct (safe_execute_catches_Exception echo ∅ s) as (_ & _ & Hv & _).
    apply (Hv (after_start s) (ValueError "缺少必需参数: text"));
      reflexivity.
  - destruct (safe_execute_catches_Exception
                (with_execute cancelled_execute echo)
                {["text" := VStr "hi"]} s) as (_ & _ & _ & Hx).
    apply (Hx (after_start s) {["text" := VStr "hi"]}
              (CancelledError EmptyString) (after_start s)).
    + reflexivity.
    + vm_compute. reflexivity.
    + reflexivity.
Defined.

Lemma initialize_idempotent_and_retriable_witness :
  let tool := GoogleSearchTool offline_search in
  let ready := {| _initialized := true; world := unconfigured |} in
  let later := with_initialize ready_later_initialize echo in
  initialize tool (new_tool unconfigured) = (Ret false, new_tool unconfigured)
  ∧ initialize tool ready = (Ret true, ready)
  ∧ initialize later (new_tool unconfigured)
    = (Ret false, new_tool unconfigured)
  ∧ _initialized (snd (safe_execute later ∅ (new_tool unconfigured))) = true.
Proof.
  intros tool ready later. split; [|split; [|split]].
  - exact (proj1 (proj1 (proj2 (proj2 (proj2
             (initialize_idempotent_and_retriable tool
                (new_tool unconfigured)))))
             (ValueError "Google API密钥或CSE ID未配置") unconfigured
             eq_refl eq_refl)).
  - exact (proj1 (proj2 (initialize_idempotent_and_retriable tool ready))
             eq_refl).
  - exact (proj1 (proj1 (proj2 (proj2 (proj2
             (initialize_idempotent_and_retriable later
                (new_tool unconfigured)))))
             (OtherError "service not ready") unconfigured
             eq_refl eq_refl)).
  - exact (proj1 (proj2 (proj2 (proj1 (proj2 (proj2 (proj2
             (initialize_idempotent_and_retriable later
                (new_tool unconfigured)))))
             (OtherError "service not ready") unconfigured
             eq_refl eq_refl)) ∅)).
Defined.

Lemma reregistration_keeps_old_category_witness :
  let first : MCPTool SimWorld := echo in
  let second := recategorized "other" first in
  let r := register second (register first (register_all [] new_registry)) in
  get_tool r "echo" = Some second ∧ "echo" ∈ category_members r "test".
Proof.
  intros first second r.
  destruct (reregistration_keeps_old_category [] first second eq_refl)
    as (Hget & _ & Hstale & _).
  split; [exact Hget|exact Hstale].
Defined.

Lemma schema_is_derived_from_metadata_witness :
  let tool := GoogleSearchTool offline_search in
  let schema := to_langchain_tool_schema tool (new_tool unconfigured) in
  size (properties (schema_parameters schema)) = 3%nat.
Proof.
  intros tool schema.
  destruct (schema_is_derived_from_metadata tool (new_tool unconfigured)
              (new_tool unconfigured)) as (_ & _ & _ & _ & _ & Hdistinct & _).
  apply Hdistinct. simpl.
  repeat (apply NoDup_cons_2;
          [rewrite ?not_elem_of_cons; repeat split;
           (discriminate || apply not_elem_of_nil)|]).
  apply NoDup_nil_2.
Defined.

Lemma echo_scenario_witness :
  let s := new_tool unconfigured in
  (0 ≤ elapsed s (snd (datetime_now (after_start s))))%Z.
Proof.
  intros s.
  destruct (echo_scenario s) as (_ & _ & (r & s' & _ & _ & _ & _ & _ & Hpos)).
  apply Hpos. vm_compute. discriminate.
Defined.

Lemma lookups_signal_absence_witness :
  let r := register_all [echo : MCPTool SimWorld] new_registry in
  get_tool r "nope" = None ∧ get_tools_by_category r "nonexistent" = Ret [].
Proof.
  intros r.
  destruct (lookups_signal_absence [echo : MCPTool SimWorld]
              "nope" "nonexistent") as (Hname & Hcategory & _).
  split; [apply Hname|apply Hcategory]; simpl;
    intros Hin; apply list_elem_of_singleton in Hin; discriminate.
Defined.

Lemma explicit_None_is_absent_witness :
  let kwargs : gmap string pyval :=
    {["query" := VStr "rocq"; "lang" := VNone]} in
  validate_parameters GoogleSearchTool_metadata kwargs
  = validate_parameters GoogleSearchTool_metadata (delete "lang" kwargs).
Proof.
  intros kwargs.
  exact (proj1 (explicit_None_is_absent GoogleSearchTool_metadata kwargs
                  "lang" eq_refl)).
Defined.

Lemma undeclared_arguments_are_dropped_witness :
  "text" ∈ declared_names echo_metadata.
Proof.
  destruct (undeclared_arguments_are_dropped echo
              {["text" := VStr "hi"; "verbose" := VBool true]}
              (new_tool unconfigured)) as (_ & _ & Hkeys & _).
  apply (Hkeys {["text" := VStr "hi"]} "text").
  - vm_compute. reflexivity.
  - exists (VStr "hi"). reflexivity.
Defined.
End Examples.

(** * Further properties of the code *)

(** ** What a successful validation guarantees *)

Section ValidatedOutput.
Context `{PyBuiltins}.
Implicit Types (param : ToolParameter) (params : list ToolParameter)
  (kwargs validated : gmap string pyval).

(** A step that returns has written the resolved value, if there is one,
    and has touched no other key. *)
Lemma validate_step_Ret kwargs param validated validated' :
  validate_step kwargs param validated = Ret validated' →
  validated'
  = (if is_None (resolved_py kwargs param) then validated
     else <[name param := resolved_py kwargs param]> validated)
  ∧ (required param = true → is_None (resolved_py kwargs param) = false)
  ∧ (is_None (default param) = false →
     is_None (resolved_py kwargs param) = false)
  ∧ (truthy (enum param) = true →
     is_None (resolved_py kwargs param) = false →
     py_in (resolved_py kwargs param) (enum_values param) = true).
Proof.
  unfold validate_step, resolved_py.
  destruct (dict_get kwargs (name param)) eqn:Hv;
    destruct (required param), (default param) eqn:Hd,
      (truthy (enum param)); simpl;
    repeat case_match; intros [= <-]; repeat split; try done;
    intros; simplify_eq/=; try done;
    by apply negb_false_iff.
Qed.
Lemma validate_loop_cons kwargs param params validated validated' :
  validate_loop kwargs (param :: params) validated = Ret validated' →
  ∃ middle, validate_step kwargs param validated = Ret middle
            ∧ validate_loop kwargs params middle = Ret validated'.
Proof.
  simpl. destruct (validate_step kwargs param validated) as [middle|e];
    [|done].
  intros Hl. by exists middle.
Qed.

Lemma validate_loop_keeps_keys kwargs params validated validated' k :
  validate_loop kwargs params validated = Ret validated' →
  is_Some (validated !! k) → is_Some (validated' !! k).
Proof.
  revert validated. induction params as [|p params IH]; intros validated.
  - by intros [= <-].
  - intros (middle & Hs & Hl)%validate_loop_cons Hk. apply (IH _ Hl).
    apply validate_step_Ret in Hs as (-> & _). case_match; [done|].
    destruct (decide (name p = k)) as [<-|Hne].
    + rewrite lookup_insert_eq. by eexists.
    + by rewrite lookup_insert_ne.
Qed.

Lemma validate_loop_member kwargs params validated validated' param :
  validate_loop kwargs params validated = Ret validated' →
  param ∈ params →
  (required param = true → is_None (resolved_py kwargs param) = false)
  ∧ (is_None (default param) = false →
     is_None (resolved_py kwargs param) = false)
  ∧ (truthy (enum param) = true →
     is_None (resolved_py kwargs param) = false →
     py_in (resolved_py kwargs param) (enum_values param) = true)
  ∧ (is_None (resolved_py kwargs param) = false →
     is_Some (validated' !! name param)).
Proof.
  revert validated. induction params as [|p params IH]; intros validated.
  - intros _ Hin. by apply elem_of_nil in Hin.
  - intros (middle & Hs & Hl)%validate_loop_cons Hin.
    apply elem_of_cons in Hin as [->|Hin]; [|by apply (IH middle)].
    apply validate_step_Ret in Hs as (-> & Hreq & Hdef & Henum).
    repeat split; try done.
    intros Hsome. apply (validate_loop_keeps_keys _ _ _ _ _ Hl).
    rewrite Hsome, lookup_insert_eq. by eexists.
Qed.

Lemma validate_loop_values kwargs params validated validated' k x :
  validate_loop kwargs params validated = Ret validated' →
  validated' !! k = Some x →
  validated !! k = Some x
  ∨ ∃ param, param ∈ params ∧ name param = k
             ∧ x = resolved_py kwargs param ∧ is_None x = false.
Proof.
  revert validated. induction params as [|p params IH]; intros validated.
  - intros [= <-]. by left.
  - intros (middle & Hs & Hl)%validate_loop_cons Hk.
    destruct (IH _ Hl Hk) as [Hm|(q & Hq & Hname & Hx & Hnone)].
    + apply validate_step_Ret in Hs as (-> & _).
      destruct (is_None (resolved_py kwargs p)) eqn:Hr; [by left|].
      destruct (decide (name p = k)) as [Heq|Hne].
      * rewrite <- Heq, lookup_insert_eq in Hm. injection Hm as <-.
        right. exists p. repeat split; try done. left.
      * rewrite lookup_insert_ne in Hm by done. by left.
    + right. exists q. repeat split; try done. by right.
Qed.

(** With distinct names and none of them in the mapping at the start, the
    mapping at the end holds under each name the resolved value of its
    descriptor, and nothing when the value resolves to [None]. *)
Lemma validate_loop_lookup kwargs params validated validated' :
  NoDup (name <$> params) →
  (∀ param, param ∈ params → validated !! name param = None) →
  validate_loop kwargs params validated = Ret validated' →
  ∀ param, param ∈ params →
    validated' !! name param
    = if is_None (resolved_py kwargs param) then None
      else Some (resolved_py kwargs param).
Proof.
  revert validated. induction params as [|p params IH]; intros validated.
  - intros _ _ _ q Hq. by apply elem_of_nil in Hq.
  - intros [Hp Hnd]%NoDup_cons Hfresh
           (middle & Hs & Hl)%validate_loop_cons q Hq.
    apply validate_step_Ret in Hs as (Hmid & _).
    apply elem_of_cons in Hq as [->|Hq].
    + destruct (validated' !! name p) as [x|] eqn:Hx.
      * destruct (validate_loop_values _ _ _ _ _ _ Hl Hx)
          as [Hm|(q & Hq & Hname & _)].
        -- rewrite Hmid in Hm.
           destruct (is_None (resolved_py kwargs p)).
           ++ rewrite Hfresh in Hm by left. done.
           ++ by rewrite lookup_insert_eq in Hm.
        -- exfalso. apply Hp. rewrite <- Hname.
           by apply list_elem_of_fmap_2.
      * destruct (is_None (resolved_py kwargs p)) eqn:Hr; [done|].
        assert (is_Some (validated' !! name p)) as [y Hy]; [|congruence].
        apply (validate_loop_keeps_keys _ _ _ _ _ Hl).
        rewrite Hmid, lookup_insert_eq. by eexists.
    + apply (IH middle); try done.
      intros q' Hq'. rewrite Hmid.
      assert (name p ≠ name q') as Hne.
      { intros Heq. apply Hp. rewrite Heq. by apply list_elem_of_fmap_2. }
      destruct (is_None (resolved_py kwargs p)).
      * apply Hfresh. by right.
      * rewrite lookup_insert_ne by done. apply Hfresh. by right.
Qed.

(** X1.  When validation succeeds, the validated mapping has a value
    under the name of every required parameter and of every parameter with
    a default; no value in it is [None]; and every value in it is the
    resolved value of a declared parameter of that name. *)
Theorem validated_arguments_are_complete md kwargs validated :
  validate_parameters md kwargs = Ret validated →
  (∀ param, param ∈ parameters md →
     required param = true ∨ default param ≠ VNone →
     is_Some (validated !! name param))
  ∧ (∀ k x, validated !! k = Some x →
       x ≠ VNone
       ∧ ∃ param, param ∈ parameters md ∧ name param = k
                  ∧ x = resolved_py kwargs param).
Proof.
  intros Hv. split.
  - intros param Hin Hwhy.
    destruct (validate_loop_member _ _ _ _ _ Hv Hin)
      as (Hreq & Hdef & _ & Hsome).
    apply Hsome. destruct Hwhy as [Hr|Hd]; [by apply Hreq|].
    apply Hdef. by destruct (default param).
  - intros k x Hk.
    destruct (validate_loop_values _ _ _ _ _ _ Hv Hk)
      as [He|(param & Hin & Hname & Hx & Hnone)].
    + by rewrite lookup_empty in He.
    + split; [by intros ->|]. by exists param.
Qed.

Lemma dict_get_validated kwargs params validated param :
  NoDup (name <$> params) →
  validate_loop kwargs params ∅ = Ret validated →
  param ∈ params →
  dict_get validated (name param) = resolved_py kwargs param.
Proof.
  intros Hnd Hl Hin. unfold dict_get.
  rewrite (validate_loop_lookup _ _ _ _ Hnd (λ _ _, lookup_empty _) Hl _ Hin).
  by destruct (resolved_py kwargs param).
Qed.

(** A step that returned returns the same on arguments that already hold
    the resolved value. *)
Lemma validate_step_resolved kwargs kwargs' param validated validated' :
  dict_get kwargs' (name param) = resolved_py kwargs param →
  validate_step kwargs param validated = Ret validated' →
  validate_step kwargs' param validated = Ret validated'.
Proof.
  unfold validate_step, resolved_py. intros ->.
  destruct (dict_get kwargs (name param)), (required param),
    (default param), (truthy (enum param)); simpl; try done;
    repeat case_match; done.
Qed.

(** X2.  Validation is idempotent when the declared names are distinct:
    a mapping that validation returned validates to itself. *)
Theorem validated_arguments_validate_to_themselves md kwargs validated :
  NoDup (declared_names md) →
  validate_parameters md kwargs = Ret validated →
  validate_parameters md validated = Ret validated.
Proof.
  unfold declared_names, validate_parameters. intros Hnd Hv.
  assert (∀ params acc,
            (∀ param, param ∈ params →
               dict_get validated (name param) = resolved_py kwargs param
               ∧ (required param = true →
                  is_None (resolved_py kwargs param) = false)) →
            ∀ out, validate_loop kwargs params acc = Ret out →
            validate_loop validated params acc = Ret out) as Hsame.
  { induction params as [|p params IH]; intros acc Hres out; [done|].
    intros (middle & Hs & Hl)%validate_loop_cons. simpl.
    destruct (Hres p) as [Hget Hreq]; [left|].
    rewrite (validate_step_resolved _ _ _ _ _ Hget Hs).
    apply IH; [|done]. intros q Hq. apply Hres. by right. }
  apply Hsame; [|done].
  intros param Hin. split.
  - by apply (dict_get_validated _ _ _ _ Hnd Hv).
  - by apply (validate_loop_member _ _ _ _ _ Hv Hin).
Qed.

(** X3.  When the declared names are distinct, a validated value of a
    parameter with a non-empty enum constraint is a member of it. *)
Theorem validated_values_respect_enum md kwargs validated param x :
  NoDup (declared_names md) →
  validate_parameters md kwargs = Ret validated →
  param ∈ parameters md →
  truthy (enum param) = true →
  validated !! name param = Some x →
  py_in x (enum_values param) = true.
Proof.
  unfold declared_names, validate_parameters. intros Hnd Hv Hin Henum Hx.
  pose proof (validate_loop_lookup _ _ _ _ Hnd (λ _ _, lookup_empty _)
                Hv _ Hin) as Hlook.
  rewrite Hx in Hlook.
  destruct (is_None (resolved_py kwargs param)) eqn:Hr; [done|].
  injection Hlook as ->.
  by apply (validate_loop_member _ _ _ _ _ Hv Hin).
Qed.

Lemma validate_step_Raise kwargs param validated e :
  validate_step kwargs param validated = Raise e →
  (e = ValueError (missing_message param)
   ∧ required param = true
   ∧ dict_get kwargs (name param) = VNone)
  ∨ (e = ValueError (enum_message param)
     ∧ truthy (enum param) = true
     ∧ resolved_py kwargs param ≠ VNone
     ∧ py_in (resolved_py kwargs param) (enum_values param) = false).
Proof.
  unfold validate_step, resolved_py.
  destruct (required param && is_None (dict_get kwargs (name param)))
    eqn:Hm.
  - intros [= <-]. left. apply andb_true_iff in Hm as [Hr Hn].
    repeat split; try done. by destruct (dict_get kwargs (name param)).
  - set (v := if is_None (dict_get kwargs (name param))
                   && negb (is_None (default param))
              then default param else dict_get kwargs (name param)).
    destruct (negb (is_None v)) eqn:Hv; [|done].
    destruct (truthy (enum param) && negb (py_in v (enum_values param)))
      eqn:He; [|done].
    intros [= <-]. right. apply andb_true_iff in He as [Ht Hin].
    repeat split; try done.
    + intros Heq. by rewrite Heq in Hv.
    + by apply negb_true_iff.
Qed.

(** X4.  The only failures of validation are the two of the code, each
    naming a declared parameter: a required parameter whose argument is
    [None] or missing, or a parameter whose resolved value is outside its
    non-empty enum. *)
Theorem validation_failures md kwargs e :
  validate_parameters md kwargs = Raise e →
  ∃ param, param ∈ parameters md
    ∧ ((e = ValueError (missing_message param)
        ∧ required param = true
        ∧ dict_get kwargs (name param) = VNone)
       ∨ (e = ValueError (enum_message param)
          ∧ truthy (enum param) = true
          ∧ resolved_py kwargs param ≠ VNone
          ∧ py_in (resolved_py kwargs param) (enum_values param) = false)).
Proof.
  unfold validate_parameters. generalize (∅ : gmap string pyval).
  induction (parameters md) as [|p params IH]; intros acc; simpl; [done|].
  destruct (validate_step kwargs p acc) as [middle|e'] eqn:Hs.
  - intros (param & Hin & Hwhy)%IH. exists param. split; [by right|done].
  - intros [= ->]. exists p. split; [left|].
    by apply validate_step_Raise in Hs.
Qed.
End ValidatedOutput.

(** ** What [safe_execute] runs, and when *)

Section ProtocolFacts.
Context {W : Type} `{Environment W} `{PyBuiltins}.
Implicit Types (self : MCPTool W) (s : ToolState W)
  (kwargs : gmap string pyval).

(** X5.  An envelope with [success=True] comes from [execute] alone: when
    [safe_execute] returns one, setup succeeded, validation passed and
    [execute] returned an envelope with [success=True]; what is returned is
    that envelope with [execution_time] replaced, whatever [execute] had
    put there. *)
Theorem success_comes_from_execute self kwargs s r s' :
  safe_execute self kwargs s = (Ret r, s') →
  success r = true →
  ∃ w1 validated r0 w2,
    setup_phase self s = (Ret (), w1)
    ∧ validate_parameters (metadata self) kwargs = Ret validated
    ∧ execute self validated w1 = (Ret r0, w2)
    ∧ success r0 = true
    ∧ r = set_execution_time r0 (elapsed s w2)
    ∧ result r = result r0 ∧ error r = error r0
    ∧ timestamp r = timestamp r0.
Proof.
  safe_execute_paths self kwargs s; intros [= <- <-]; try done.
  intros Hok. do 4 eexists. repeat split; eauto.
Qed.

Lemma setup_phase_with_execute body self s :
  setup_phase (with_execute body self) s = setup_phase self s.
Proof. done. Qed.

(** X6.  [execute] is not called when setup fails or when validation
    fails: in both cases the call returns the same envelope and leaves the
    same state whatever the body of [execute] is. *)
Theorem execute_needs_setup_and_validation self kwargs s body :
  (∃ e w1, setup_phase self s = (Raise e, w1))
  ∨ (∃ e, validate_parameters (metadata self) kwargs = Raise e) →
  safe_execute (with_execute body self) kwargs s
  = safe_execute self kwargs s.
Proof.
  intros Hwhy.
  destruct (setup_phase self s) as [[[]|e] w1] eqn:Hs.
  - destruct Hwhy as [(e & w & [=])|[e Hv]].
    rewrite (safe_execute_invalid self _ _ _ _ Hs Hv).
    by rewrite (safe_execute_invalid (with_execute body self) _ _ _ _ Hs Hv).
  - destruct (is_Exception e) eqn:Hx.
    + rewrite (safe_execute_setup_failed self kwargs _ _ _ Hs Hx).
      by rewrite (safe_execute_setup_failed (with_execute body self)
                    kwargs _ _ _ Hs Hx).
    + rewrite (safe_execute_setup_escapes self kwargs _ _ _ Hs Hx).
      by rewrite (safe_execute_setup_escapes (with_execute body self)
                    kwargs _ _ _ Hs Hx).
Qed.

Lemma safe_execute_skips_setup self kwargs s setup :
  _initialized s = true →
  safe_execute (with_initialize setup self) kwargs s
  = safe_execute self kwargs s.
Proof.
  intros Hi.
  pose proof (setup_phase_done self s Hi) as Hs.
  pose proof (setup_phase_done (with_initialize setup self) s Hi) as Hs'.
  destruct (validate_parameters (metadata self) kwargs) as [v|e] eqn:Hv.
  - destruct (execute self v (after_start s)) as [[r0|e] w2] eqn:He.
    + rewrite (safe_execute_returned self _ _ _ _ _ _ Hs Hv He).
      by rewrite (safe_execute_returned (with_initialize setup self)
                    _ _ _ _ _ _ Hs' Hv He).
    + destruct (is_Exception e) eqn:Hx.
      * rewrite (safe_execute_raised self _ _ _ _ _ _ Hs Hv He Hx).
        by rewrite (safe_execute_raised (with_initialize setup self)
                      _ _ _ _ _ _ Hs' Hv He Hx).
      * rewrite (safe_execute_escapes self _ _ _ _ _ _ Hs Hv He Hx).
        by rewrite (safe_execute_escapes (with_initialize setup self)
                      _ _ _ _ _ _ Hs' Hv He Hx).
  - rewrite (safe_execute_invalid self _ _ _ _ Hs Hv).
    by rewrite (safe_execute_invalid (with_initialize setup self)
                  _ _ _ _ Hs' Hv).
Qed.

(** X7.  Once a tool is initialized, [_initialize] is never run again:
    every later sequence of [initialize] and [safe_execute] calls leaves
    the same state whatever the body of [_initialize] is. *)
Theorem setup_is_not_run_again self s setup cs :
  _initialized s = true →
  run_calls (with_initialize setup self) s cs = run_calls self s cs.
Proof.
  revert s. induction cs as [|c cs IH]; intros s Hi; simpl; [done|].
  assert (run_call (with_initialize setup self) s c = run_call self s c)
    as ->.
  { destruct c; simpl.
    - by rewrite !initialize_done.
    - by rewrite safe_execute_skips_setup. }
  apply IH. destruct c; simpl.
  - by apply initialize_keeps_flag.
  - by apply safe_execute_keeps_flag.
Qed.

(** X8.  After a call of [safe_execute] the tool is initialized exactly
    when the setup phase of the call succeeded, whether or not validation
    and [execute] then failed. *)
Theorem initialized_after_safe_execute self kwargs s :
  _initialized (snd (safe_execute self kwargs s)) = true
  ↔ ∃ w1, setup_phase self s = (Ret (), w1).
Proof.
  safe_execute_paths self kwargs s; simpl;
    (split; [try done; by eexists|]); try done; by intros [w [=]].
Qed.
End ProtocolFacts.

(** ** The registry after a sequence of registrations *)

Section RegistrationFacts.
Context {W : Type}.
Implicit Types (tool : MCPTool W) (tools : list (MCPTool W))
  (r : ToolRegistry W) (n c : string).

Lemma last_filter_unique {A} (f : A → string) (l : list A) (x : A) :
  NoDup (f <$> l) → x ∈ l →
  last (filter (λ y, f y = f x) l) = Some x.
Proof.
  induction l as [|y l IH]; simpl.
  - intros _ Hin. by apply elem_of_nil in Hin.
  - intros [Hy Hnd]%NoDup_cons Hin. rewrite filter_cons.
    apply elem_of_cons in Hin as [->|Hin].
    + rewrite decide_True by done.
      assert (filter (λ z, f z = f y) l = []) as ->; [|done].
      apply elem_of_nil_inv. intros z [Hz Hin]%list_elem_of_filter.
      apply Hy. rewrite <- Hz. by apply list_elem_of_fmap_2.
    + destruct (decide (f y = f x)) as [Heq|Hne]; [|by apply IH].
      exfalso. apply Hy. rewrite Heq. by apply list_elem_of_fmap_2.
Qed.

Lemma elem_of_foldl_add_once (l ns : list string) n :
  n ∈ foldl add_once l ns ↔ n ∈ l ∨ n ∈ ns.
Proof.
  revert l. induction ns as [|m ns IH]; intros l; simpl.
  - rewrite elem_of_nil. naive_solver.
  - rewrite IH, elem_of_cons. unfold add_once. case_bool_decide.
    + naive_solver.
    + rewrite elem_of_app, list_elem_of_singleton. naive_solver.
Qed.

Lemma foldl_add_once_NoDup (l ns : list string) :
  NoDup (l ++ ns) → foldl add_once l ns = (l ++ ns)%list.
Proof.
  revert l. induction ns as [|m ns IH]; intros l Hnd; simpl.
  - by rewrite app_nil_r.
  - unfold add_once at 2. rewrite bool_decide_eq_false_2.
    + rewrite IH; rewrite <- app_assoc; done.
    + apply NoDup_app in Hnd as (_ & Hdis & _). intros Hin.
      apply (Hdis m Hin). left.
Qed.

Lemma get_tool_register_all tools r n :
  get_tool (register_all tools r) n
  = match last (filter (λ tool, tool_name (metadata tool) = n) tools) with
    | Some tool => Some tool
    | None => get_tool r n
    end.
Proof.
  revert r. induction tools as [|t tools IH]; intros r; simpl; [done|].
  rewrite IH, filter_cons, get_tool_register.
  destruct (decide (tool_name (metadata t) = n)) as [Hn|Hn].
  - rewrite last_cons.
    by destruct (last (filter (λ tool, tool_name (metadata tool) = n) tools)).
  - done.
Qed.

(** X9.  Last write wins: after any sequence of registrations a name is
    bound to the tool registered last under it, and a name under which
    nothing was registered keeps what it had. *)
Theorem get_tool_after_registrations tools r n :
  get_tool (register_all tools r) n
  = match last (filter (λ tool, tool_name (metadata tool) = n) tools) with
    | Some tool => Some tool
    | None => get_tool r n
    end.
Proof. apply get_tool_register_all. Qed.

Lemma category_members_register_all tools r c :
  category_members (register_all tools r) c
  = foldl add_once (category_members r c)
      ((λ tool, tool_name (metadata tool))
         <$> filter (λ tool, category (metadata tool) = c) tools).
Proof.
  revert r. induction tools as [|t tools IH]; intros r; simpl; [done|].
  rewrite IH, filter_cons, category_members_register.
  destruct (decide (category (metadata t) = c)); done.
Qed.

(** X10.  The list of a category holds the names registered under that
    category in the order of their first registration, each once; the
    registrations under other categories do not touch it. *)
Theorem category_members_after_registrations tools r c :
  category_members (register_all tools r) c
  = foldl add_once (category_members r c)
      ((λ tool, tool_name (metadata tool))
         <$> filter (λ tool, category (metadata tool) = c) tools).
Proof. apply category_members_register_all. Qed.

(** X11.  When the registered tools have distinct names, a lookup by
    category returns exactly the registered tools of that category, in
    registration order, and the category index is exact: a name is listed
    under a category if and only if the tool registered under that name has
    that category. *)
Theorem distinct_names_give_exact_categories tools c :
  NoDup ((λ tool, tool_name (metadata tool)) <$> tools) →
  let r := register_all tools new_registry in
  get_tools_by_category r c
  = Ret (filter (λ tool, category (metadata tool) = c) tools)
  ∧ ∀ n, n ∈ category_members r c
         ↔ ∃ tool, get_tool r n = Some tool ∧ category (metadata tool) = c.
Proof.
  intros Hnd r.
  assert (∀ tool, tool ∈ tools →
            get_tool r (tool_name (metadata tool)) = Some tool) as Hget.
  { intros tool Hin. unfold r. rewrite get_tool_register_all.
    by rewrite (last_filter_unique (λ t, tool_name (metadata t))). }
  assert (category_members r c
          = (λ tool, tool_name (metadata tool))
              <$> filter (λ tool, category (metadata tool) = c) tools)
    as Hmembers.
  { unfold r. rewrite category_members_register_all.
    change (category_members new_registry c) with (@nil string).
    apply (foldl_add_once_NoDup []). simpl.
    eapply sublist_NoDup; [exact Hnd|].
    apply fmap_sublist, sublist_filter. }
  split.
  - unfold get_tools_by_category. fold (category_members r c).
    rewrite Hmembers.
    assert (∀ l, (∀ tool, tool ∈ l → tool ∈ tools) →
              comprehension (tools_getitem r)
                ((λ tool, tool_name (metadata tool)) <$> l) = Ret l) as Hcomp.
    { induction l as [|t l IH]; intros Hsub; [done|].
      rewrite fmap_cons. cbn [comprehension].
      unfold tools_getitem at 1. unfold get_tool in Hget.
      rewrite Hget by (apply Hsub; left).
      rewrite IH; [done|]. intros t' Ht'. apply Hsub. by right. }
    apply Hcomp. by intros tool [_ Hin]%list_elem_of_filter.
  - intros n. rewrite Hmembers, list_elem_of_fmap. split.
    + intros (tool & -> & [Hc Hin]%list_elem_of_filter).
      exists tool. by rewrite Hget.
    + intros (tool & Hn & Hc). exists tool.
      unfold r in Hn. rewrite get_tool_register_all in Hn.
      destruct (last (filter (λ t, tool_name (metadata t) = n) tools))
        as [t|] eqn:Hlast; [|done].
      injection Hn as ->.
      apply last_Some_elem_of, list_elem_of_filter in Hlast as [Hname Hin].
      split; [done|]. by apply list_elem_of_filter.
Qed.

(** X12.  Registering the tool that was just registered changes
    nothing. *)
Theorem register_twice tool r :
  register tool (register tool r) = register tool r.
Proof.
  pose proof (category_members_register_own tool r) as Hown.
  unfold category_members in Hown.
  destruct (_categories (register tool r) !! category (metadata tool))
    as [l|] eqn:Hl; [|by apply elem_of_nil in Hown].
  remember (register tool r) as r1 eqn:Hr1.
  unfold register. rewrite Hl, lookup_total_alt, Hl.
  simpl. rewrite bool_decide_eq_true_2 by done.
  subst r1. by rewrite register_tools, insert_insert_eq.
Qed.
End RegistrationFacts.

(** ** Dictionaries in insertion order: lookup, assignment, keys *)

Section PydictFacts.
Context {V : Type}.
Implicit Types (d : pydict V) (k : string) (v : V).

Lemma pydict_get_to_map d k :
  pydict_get d k = (list_to_map d : gmap string V) !! k.
Proof.
  induction d as [|[k' v'] d IH]; simpl; [done|].
  destruct (decide (k' = k)) as [->|Hne].
  - by rewrite lookup_insert_eq.
  - by rewrite lookup_insert_ne.
Qed.

Lemma pydict_set_to_map k v d :
  (list_to_map (pydict_set k v d) : gmap string V)
  = <[k := v]> (list_to_map d).
Proof.
  induction d as [|[k' v'] d IH]; simpl; [done|].
  destruct (decide (k' = k)) as [->|Hne]; simpl.
  - by rewrite insert_insert_eq.
  - rewrite IH. by apply insert_insert_ne.
Qed.

Lemma pydict_keys_set k v d :
  pydict_keys (pydict_set k v d) = add_once (pydict_keys d) k.
Proof.
  induction d as [|[k' v'] d IH]; [done|]. cbn [pydict_set].
  destruct (decide (k' = k)) as [->|Hne].
  - change (pydict_keys ((k, v) :: d)) with (k :: pydict_keys d).
    change (pydict_keys ((k, v') :: d)) with (k :: pydict_keys d).
    unfold add_once. by rewrite bool_decide_eq_true_2 by left.
  - change (pydict_keys ((k', v') :: pydict_set k v d))
      with (k' :: pydict_keys (pydict_set k v d)).
    change (pydict_keys ((k', v') :: d)) with (k' :: pydict_keys d).
    rewrite IH. unfold add_once. case_bool_decide as Hin.
    + by rewrite bool_decide_eq_true_2 by (by right).
    + rewrite bool_decide_eq_false_2; [done|].
      intros [?|?]%elem_of_cons; congruence.
Qed.

Lemma elem_of_pydict_set k v d k' v' :
  (k', v') ∈ pydict_set k v d → (k' = k ∧ v' = v) ∨ (k', v') ∈ d.
Proof.
  induction d as [|[k0 v0] d IH]; simpl.
  - intros [=]%list_elem_of_singleton. by left.
  - destruct (decide (k0 = k)) as [->|Hne].
    + intros [[=]|Hin]%elem_of_cons; [by left|]. right. by right.
    + intros [[=]|Hin]%elem_of_cons; [right; subst; left|].
      destruct (IH Hin) as [?|?]; [by left|]. right. by right.
Qed.

Lemma pydict_get_Some_elem_of d k v :
  pydict_get d k = Some v → (k, v) ∈ d.
Proof.
  induction d as [|[k' v'] d IH]; simpl; [done|].
  destruct (decide (k' = k)) as [->|Hne].
  - intros [= ->]. left.
  - intros Hg. right. by apply IH.
Qed.

Lemma pydict_get_key d k :
  k ∈ pydict_keys d ↔ is_Some (pydict_get d k).
Proof.
  rewrite pydict_get_to_map. unfold pydict_keys.
  rewrite <- (elem_of_dom (D := gset string)), dom_list_to_map_L.
  by rewrite elem_of_list_to_set.
Qed.
End PydictFacts.

Lemma add_once_NoDup (l : list string) n : NoDup l → NoDup (add_once l n).
Proof.
  intros Hnd. unfold add_once. case_bool_decide; [done|].
  apply NoDup_app. split; [done|]. split; [|apply NoDup_singleton].
  by intros m Hm ->%list_elem_of_singleton.
Qed.

Lemma foldl_add_once_keeps_NoDup (l ns : list string) :
  NoDup l → NoDup (foldl add_once l ns).
Proof.
  revert l. induction ns as [|n ns IH]; intros l Hnd; simpl; [done|].
  by apply IH, add_once_NoDup.
Qed.

Lemma comprehension_ext {A B} (f g : A → outcome B) (l : list A) :
  (∀ x, f x = g x) → comprehension f l = comprehension g l.
Proof.
  intros Hfg. induction l as [|x l IH]; simpl; [done|].
  by rewrite Hfg, IH.
Qed.

(** ** The ordered registry *)

Section OrderedFacts.
Context {W : Type}.
Implicit Types (tool : MCPTool W) (tools : list (MCPTool W))
  (r : Ordered.ToolRegistry W) (n c : string).

Lemma unordered_register tool r :
  unordered (Ordered.register tool r) = register tool (unordered r).
Proof.
  unfold unordered, Ordered.register, register; simpl.
  rewrite pydict_set_to_map. f_equal.
  rewrite !pydict_get_to_map. unfold Ordered.members_of.
  destruct (list_to_map (Ordered._categories r)
              !! category (metadata tool)) as [l|] eqn:Hl.
  - rewrite pydict_get_to_map, Hl, lookup_total_alt, Hl; simpl.
    case_bool_decide; [done|]. by rewrite pydict_set_to_map.
  - rewrite pydict_get_to_map, pydict_set_to_map, lookup_total_alt.
    rewrite lookup_insert_eq; simpl.
    by rewrite !pydict_set_to_map.
Qed.

Lemma unordered_register_all tools r :
  unordered (Ordered.register_all tools r)
  = register_all tools (unordered r).
Proof.
  revert r. induction tools as [|t tools IH]; intros r; simpl; [done|].
  by rewrite IH, unordered_register.
Qed.

(** X13.  The ordered registry and the registry of the claims are the
    same registry: forgetting the order commutes with [register], starting
    from the empty registries, and both lookups give the same answers. *)
Theorem ordered_registry_refines tools r n c :
  unordered (@Ordered.new_registry W) = new_registry
  ∧ unordered (Ordered.register_all tools r)
    = register_all tools (unordered r)
  ∧ Ordered.get_tool r n = get_tool (unordered r) n
  ∧ Ordered.get_tools_by_category r c
    = get_tools_by_category (unordered r) c.
Proof.
  split; [done|]. split; [apply unordered_register_all|].
  split; [apply pydict_get_to_map|].
  unfold Ordered.get_tools_by_category, get_tools_by_category,
    unordered; simpl.
  rewrite pydict_get_to_map. apply comprehension_ext.
  intros x. unfold Ordered.tools_getitem, tools_getitem; simpl.
  by rewrite pydict_get_to_map.
Qed.

Lemma list_all_tools_register tool r :
  Ordered.list_all_tools (Ordered.register tool r)
  = add_once (Ordered.list_all_tools r) (tool_name (metadata tool)).
Proof. apply pydict_keys_set. Qed.

Lemma list_all_tools_register_all tools r :
  Ordered.list_all_tools (Ordered.register_all tools r)
  = foldl add_once (Ordered.list_all_tools r)
      ((λ tool, tool_name (metadata tool)) <$> tools).
Proof.
  revert r. induction tools as [|t tools IH]; intros r; simpl; [done|].
  by rewrite IH, list_all_tools_register.
Qed.

(** X14.  [list_all_tools] gives the registered names in the order of
    their first registration, each once: registering a name again does not
    move it. *)
Theorem list_all_tools_after_registrations tools r :
  Ordered.list_all_tools (Ordered.register_all tools r)
  = foldl add_once (Ordered.list_all_tools r)
      ((λ tool, tool_name (metadata tool)) <$> tools)
  ∧ (NoDup (Ordered.list_all_tools r) →
     NoDup (Ordered.list_all_tools (Ordered.register_all tools r))).
Proof.
  split; [apply list_all_tools_register_all|].
  rewrite list_all_tools_register_all. apply foldl_add_once_keeps_NoDup.
Qed.

Lemma well_keyed_new : well_keyed (@Ordered.new_registry W).
Proof.
  repeat split; try apply NoDup_nil_2.
  intros k tool Hin. by apply elem_of_nil in Hin.
Qed.

Lemma well_keyed_register tool r :
  well_keyed r → well_keyed (Ordered.register tool r).
Proof.
  intros (Ht & Hc & Hown). repeat split.
  - unfold Ordered.register; simpl. rewrite pydict_keys_set.
    by apply add_once_NoDup.
  - unfold Ordered.register; simpl.
    repeat case_match; rewrite ?pydict_keys_set;
      repeat apply add_once_NoDup; done.
  - intros k t [[-> ->]|Hin]%elem_of_pydict_set; [done|]. by apply Hown.
Qed.

Lemma well_keyed_register_all tools r :
  well_keyed r → well_keyed (Ordered.register_all tools r).
Proof.
  revert r. induction tools as [|t tools IH]; intros r Hr; simpl; [done|].
  by apply IH, well_keyed_register.
Qed.

Lemma names_of_values (d : pydict (MCPTool W)) :
  (∀ k tool, (k, tool) ∈ d → tool_name (metadata tool) = k) →
  (λ tool, tool_name (metadata tool)) <$> pydict_values d = pydict_keys d.
Proof.
  unfold pydict_values, pydict_keys.
  induction d as [|[k t] d IH]; intros Hown; simpl; [done|].
  rewrite (Hown k t) by left. f_equal. apply IH.
  intros k' t' Hin. apply Hown. by right.
Qed.

(** X15.  In a registry reached by registrations, the three enumerations
    are aligned: the metadata list and the schema list name the tools in the
    order of [list_all_tools], one entry per registered name, and every
    listed name is found by [get_tool], bound to a tool of that name. *)
Theorem enumerations_are_aligned tools (states : string → ToolState W) :
  let r := Ordered.register_all tools Ordered.new_registry in
  tool_name <$> Ordered.get_tools_metadata r = Ordered.list_all_tools r
  ∧ schema_name <$> Ordered.get_langchain_tools_schema r states
    = Ordered.list_all_tools r
  ∧ NoDup (Ordered.list_all_tools r)
  ∧ (∀ n, n ∈ Ordered.list_all_tools r
          ↔ n ∈ (λ tool, tool_name (metadata tool)) <$> tools)
  ∧ ∀ n, n ∈ Ordered.list_all_tools r →
         ∃ tool, Ordered.get_tool r n = Some tool
                 ∧ tool_name (metadata tool) = n.
Proof.
  intros r.
  destruct (well_keyed_register_all tools _ well_keyed_new)
    as (Hnd & _ & Hown). fold r in Hnd, Hown.
  split; [|split; [|split; [|split]]].
  - unfold Ordered.get_tools_metadata, Ordered.list_all_tools.
    rewrite <- list_fmap_compose. by apply names_of_values.
  - unfold Ordered.get_langchain_tools_schema, Ordered.list_all_tools.
    rewrite <- list_fmap_compose. by apply names_of_values.
  - done.
  - intros n. unfold r.
    rewrite list_all_tools_register_all.
    rewrite elem_of_foldl_add_once.
    change (Ordered.list_all_tools Ordered.new_registry) with (@nil string).
    rewrite elem_of_nil. naive_solver.
  - intros n [tool Hget]%pydict_get_key. exists tool. split; [done|].
    apply Hown. by apply pydict_get_Some_elem_of.
Qed.
End OrderedFacts.

(** ** The tools of the repository *)

Section RepositoryTools.
Context `{PyBuiltins}.

Lemma register_all_tools_spec {W} (tools : list (MCPTool W))
    (r : Ordered.ToolRegistry W) (count : nat) :
  foldl (λ '(registered_count, registry) tool,
           (S registered_count, Ordered.register tool registry))
        (count, r) tools
  = ((length tools + count)%nat, Ordered.register_all tools r).
Proof.
  revert count r. induction tools as [|t tools IH]; intros count r; simpl;
    [done|].
  rewrite IH. f_equal. lia.
Qed.

(** X16.  [register_all_tools] registers every tool of its list, so its
    count is the length of the list; on the five tools of the repository
    the count is 5, the names are enumerated in the order of the list, and
    the category index has the three categories [web], [file] and [data]
    with the names of their tools, whatever the bodies of the tools are. *)
Theorem register_all_tools_registers_everything :
  (∀ W (tools : list (MCPTool W)) (r : Ordered.ToolRegistry W),
     register_all_tools tools r
     = (length tools, Ordered.register_all tools r))
  ∧ ∀ b : ToolBodies,
      let started :=
        register_all_tools (tools_to_register b) Ordered.new_registry in
      fst started = 5%nat
      ∧ Ordered.list_all_tools (snd started)
        = ["google_search"; "bing_search"; "file_read"; "file_write";
           "csv_analysis"]
      ∧ Ordered._categories (snd started)
        = [("web", ["google_search"; "bing_search"]);
           ("file", ["file_read"; "file_write"]);
           ("data", ["csv_analysis"])].
Proof.
  split.
  - intros W tools r. unfold register_all_tools.
    rewrite register_all_tools_spec. f_equal. lia.
  - intros b. split; [|split]; vm_compute; reflexivity.
Qed.

Lemma py_in_two (x : pyval) (a b : string) :
  py_in x [VStr a; VStr b] = true → x = VStr a ∨ x = VStr b.
Proof.
  unfold py_in; simpl. rewrite !orb_true_iff.
  destruct x; simpl; try naive_solver.
  rewrite !String.eqb_eq. naive_solver.
Qed.

(** X17.  What reaches [FileWriteTool.execute]: when validation of the
    arguments of [file_write] succeeds, the validated mapping has exactly
    the four keys [file_path], [content], [encoding] and [mode], so the
    call of [execute] has all its arguments; the path and the content are
    the supplied ones, the encoding is the supplied one or ["utf-8"], and
    the mode is ["w"] or ["a"] and nothing else. *)
Theorem file_write_arguments kwargs validated :
  validate_parameters FileWriteTool_metadata kwargs = Ret validated →
  (∀ k, is_Some (validated !! k)
        ↔ k ∈ ["file_path"; "content"; "encoding"; "mode"])
  ∧ validated !! "file_path" = kwargs !! "file_path"
  ∧ validated !! "content" = kwargs !! "content"
  ∧ validated !! "encoding"
    = Some (if is_None (dict_get kwargs "encoding") then VStr "utf-8"
            else dict_get kwargs "encoding")
  ∧ (validated !! "mode" = Some (VStr "w")
     ∨ validated !! "mode" = Some (VStr "a")).
Proof.
  intros Hv.
  assert (NoDup (declared_names FileWriteTool_metadata)) as Hnd.
  { unfold declared_names. cbn [parameters FileWriteTool_metadata fmap
                                 list_fmap name].
    repeat (apply NoDup_cons_2;
            [rewrite ?not_elem_of_cons; repeat split;
             (discriminate || apply not_elem_of_nil)|]).
    apply NoDup_nil_2. }
  pose proof (validate_loop_lookup kwargs _ ∅ validated Hnd
                (λ _ _, lookup_empty _) Hv) as Hlook.
  pose proof (λ p Hin, validate_loop_member kwargs _ ∅ validated p Hv Hin)
    as Hmem.
  pose proof (Hlook _ (list_elem_of_lookup_2
                         (parameters FileWriteTool_metadata) 0%nat _ eq_refl))
    as H1.
  pose proof (Hlook _ (list_elem_of_lookup_2
                         (parameters FileWriteTool_metadata) 1%nat _ eq_refl))
    as H2.
  pose proof (Hlook _ (list_elem_of_lookup_2
                         (parameters FileWriteTool_metadata) 2%nat _ eq_refl))
    as H3.
  pose proof (Hlook _ (list_elem_of_lookup_2
                         (parameters FileWriteTool_metadata) 3%nat _ eq_refl))
    as H4.
  destruct (Hmem _ (list_elem_of_lookup_2
                      (parameters FileWriteTool_metadata) 0%nat _ eq_refl))
    as (Hr1 & _).
  destruct (Hmem _ (list_elem_of_lookup_2
                      (parameters FileWriteTool_metadata) 1%nat _ eq_refl))
    as (Hr2 & _).
  destruct (Hmem _ (list_elem_of_lookup_2
                      (parameters FileWriteTool_metadata) 2%nat _ eq_refl))
    as (_ & Hd3 & _).
  destruct (Hmem _ (list_elem_of_lookup_2
                      (parameters FileWriteTool_metadata) 3%nat _ eq_refl))
    as (_ & Hd4 & He4 & _).
  clear Hlook Hmem.
  specialize (Hr1 eq_refl). specialize (Hr2 eq_refl).
  specialize (Hd3 eq_refl). specialize (Hd4 eq_refl).
  specialize (He4 eq_refl Hd4).
  rewrite Hr1 in H1. rewrite Hr2 in H2. rewrite Hd3 in H3.
  rewrite Hd4 in H4.
  cbn [name] in H1, H2, H3, H4.
  unfold resolved_py in *. cbn [name default required enum] in *.
  split; [|split; [|split; [|split]]].
  - intros k. split.
    + intros Hk. by apply (validate_parameters_keys _ _ _ _ Hv) in Hk.
    + intros Hk.
      repeat (apply elem_of_cons in Hk as [->|Hk]);
        [rewrite H1|rewrite H2|rewrite H3|rewrite H4|
         by apply elem_of_nil in Hk];
        by eexists.
  - rewrite H1. unfold dict_get in Hr1 |- *.
    destruct (kwargs !! "file_path") as [v|]; [destruct v|];
      simpl in Hr1 |- *; congruence.
  - rewrite H2. unfold dict_get in Hr2 |- *.
    destruct (kwargs !! "content") as [v|]; [destruct v|];
      simpl in Hr2 |- *; congruence.
  - rewrite H3. by destruct (is_None (dict_get kwargs "encoding")).
  - rewrite H4. apply py_in_two in He4.
    destruct He4 as [He|He]; rewrite He; [by left|by right].
Qed.
End RepositoryTools.

(** ** The listing routes *)

Section ListingFacts.
Context {W : Type}.
Implicit Types (tool : MCPTool W) (tools : list (MCPTool W))
  (r : Ordered.ToolRegistry W) (c : string).

Lemma pydict_get_set {V} (d : pydict V) k v k' :
  pydict_get (pydict_set k v d) k'
  = if decide (k = k') then Some v else pydict_get d k'.
Proof.
  rewrite !pydict_get_to_map, pydict_set_to_map. apply lookup_insert.
Qed.

Lemma pydict_set_fresh {V} (d : pydict V) k v :
  k ∉ pydict_keys d → pydict_set k v d = (d ++ [(k, v)])%list.
Proof.
  unfold pydict_keys. induction d as [|[k' v'] d IH]; simpl; [done|].
  intros [Hne Hd]%not_elem_of_cons. rewrite decide_False by done.
  by rewrite IH.
Qed.

Lemma members_of_unordered r c :
  Ordered.members_of (Ordered._categories r) c
  = category_members (unordered r) c.
Proof.
  unfold Ordered.members_of, category_members, unordered; simpl.
  by rewrite pydict_get_to_map.
Qed.

(** The list of a category after one pass of the loop of the route. *)
Lemma members_of_add_to_category (d : pydict (list string)) md c :
  Ordered.members_of (Routes.add_to_category d md) c
  = if decide (category md = c)
    then (Ordered.members_of d c ++ [tool_name md])%list
    else Ordered.members_of d c.
Proof.
  unfold Routes.add_to_category, Ordered.members_of.
  rewrite pydict_get_set.
  destruct (decide (category md = c)) as [<-|Hne].
  - destruct (pydict_get d (category md)) eqn:Hd; [by rewrite Hd|].
    by rewrite pydict_get_set, decide_True.
  - destruct (pydict_get d (category md)); [done|].
    by rewrite pydict_get_set, decide_False.
Qed.

Lemma keys_add_to_category (d : pydict (list string)) md :
  pydict_keys (Routes.add_to_category d md)
  = add_once (pydict_keys d) (category md).
Proof.
  unfold Routes.add_to_category. rewrite pydict_keys_set.
  destruct (pydict_get d (category md)) eqn:Hd; [done|].
  rewrite pydict_keys_set. unfold add_once at 1.
  rewrite bool_decide_eq_true_2; [done|].
  unfold add_once. case_bool_decide; [done|].
  apply elem_of_app. right. left.
Qed.

(** X18.  [list_tools] never fails; it lists the registered tools in the
    order of [list_all_tools], one entry per registered name with the
    metadata of the tool bound to that name, and [total_count] is the
    number of registered names. *)
Theorem list_tools_lists_every_name tools :
  let r := Ordered.register_all tools Ordered.new_registry in
  ∃ body, Routes.list_tools r = Response body
    ∧ Routes.listing_name <$> Routes.tools body = Ordered.list_all_tools r
    ∧ Routes.total_count body = length (Ordered.list_all_tools r)
    ∧ ∀ listing, listing ∈ Routes.tools body →
        ∃ tool, Ordered.get_tool r (Routes.listing_name listing) = Some tool
                ∧ listing = Routes.listing_of (metadata tool).
Proof.
  intros r. eexists. split; [reflexivity|]. simpl.
  destruct (well_keyed_register_all tools _ well_keyed_new)
    as (Hkeys & _ & Hown). fold r in Hkeys, Hown.
  assert (tool_name <$> Ordered.get_tools_metadata r
          = Ordered.list_all_tools r) as Hnames.
  { unfold Ordered.get_tools_metadata, Ordered.list_all_tools.
    rewrite <- list_fmap_compose. by apply names_of_values. }
  split; [|split].
  - rewrite <- Hnames, <- list_fmap_compose. done.
  - rewrite length_fmap, <- Hnames, length_fmap. done.
  - intros listing (md & -> & Hmd)%list_elem_of_fmap.
    unfold Ordered.get_tools_metadata in Hmd.
    apply list_elem_of_fmap in Hmd as (tool & -> & Hin).
    unfold pydict_values in Hin.
    apply list_elem_of_fmap in Hin as ([k t] & -> & Hin). simpl.
    exists t. split; [|done].
    rewrite (Hown k t Hin). unfold Ordered.get_tool.
    rewrite pydict_get_to_map.
    by apply elem_of_list_to_map_1.
Qed.
Lemma members_of_foldl_add_to_category (d : pydict (list string))
    (mds : list ToolMetadata) c :
  Ordered.members_of (foldl Routes.add_to_category d mds) c
  = (Ordered.members_of d c
     ++ (tool_name <$> filter (λ md, category md = c) mds))%list.
Proof.
  revert d. induction mds as [|md mds IH]; intros d; simpl.
  - by rewrite app_nil_r.
  - rewrite IH, members_of_add_to_category, filter_cons.
    destruct (decide (category md = c)); [|done].
    by rewrite <- app_assoc.
Qed.

Lemma keys_foldl_add_to_category (d : pydict (list string))
    (mds : list ToolMetadata) :
  pydict_keys (foldl Routes.add_to_category d mds)
  = foldl add_once (pydict_keys d) (category <$> mds).
Proof.
  revert d. induction mds as [|md mds IH]; intros d; simpl; [done|].
  by rewrite IH, keys_add_to_category.
Qed.

(** X19.  [list_tool_categories] never fails.  It groups the registered
    tools by the category each has now: the list of a category holds, in
    enumeration order, the names of exactly the registered tools of that
    category, the categories appear in the order of their first tool, and
    [category_count] is the number of categories in use. *)
Theorem list_tool_categories_groups_by_current_category r :
  ∃ body, Routes.list_tool_categories r = Response body
    ∧ (∀ c, Ordered.members_of (Routes.categories body) c
            = tool_name <$> filter (λ md, category md = c)
                              (Ordered.get_tools_metadata r))
    ∧ pydict_keys (Routes.categories body)
      = foldl add_once [] (category <$> Ordered.get_tools_metadata r)
    ∧ NoDup (pydict_keys (Routes.categories body))
    ∧ Routes.category_count body
      = length (pydict_keys (Routes.categories body)).
Proof.
  eexists. split; [reflexivity|]. simpl. split; [|split; [|split]].
  - intros c. by rewrite members_of_foldl_add_to_category.
  - by rewrite keys_foldl_add_to_category.
  - rewrite keys_foldl_add_to_category.
    apply foldl_add_once_keeps_NoDup, NoDup_nil_2.
  - unfold pydict_keys. by rewrite length_fmap.
Qed.

(** The category index after a registration under a name that the
    category does not list is what the loop of the route builds. *)
Lemma categories_register_fresh tool r :
  tool_name (metadata tool)
  ∉ Ordered.members_of (Ordered._categories r) (category (metadata tool)) →
  Ordered._categories (Ordered.register tool r)
  = Routes.add_to_category (Ordered._categories r) (metadata tool).
Proof.
  intros Hfresh. unfold Ordered.register, Routes.add_to_category; simpl.
  destruct (pydict_get (Ordered._categories r) (category (metadata tool)))
    as [l|] eqn:Hl.
  - rewrite bool_decide_eq_false_2; done.
  - rewrite bool_decide_eq_false_2; [done|].
    unfold Ordered.members_of. rewrite pydict_get_set, decide_True by done.
    apply not_elem_of_nil.
Qed.

Lemma registrations_of_fresh_names tools r :
  NoDup ((λ tool, tool_name (metadata tool)) <$> tools) →
  (∀ tool, tool ∈ tools →
     tool_name (metadata tool) ∉ Ordered.list_all_tools r) →
  (∀ c n, n ∈ Ordered.members_of (Ordered._categories r) c →
          n ∉ (λ tool, tool_name (metadata tool)) <$> tools) →
  pydict_values (Ordered._tools (Ordered.register_all tools r))
  = (pydict_values (Ordered._tools r) ++ tools)%list
  ∧ Ordered._categories (Ordered.register_all tools r)
    = foldl Routes.add_to_category (Ordered._categories r)
        (metadata <$> tools).
Proof.
  revert r. induction tools as [|t tools IH]; intros r Hnd Hkeys Hlisted.
  - simpl. by rewrite app_nil_r.
  - rewrite fmap_cons in Hnd. apply NoDup_cons in Hnd as [Ht Hnd].
    cbn [Ordered.register_all foldl].
    change (foldl (λ r0 tool, Ordered.register tool r0)
              (Ordered.register t r) tools)
      with (Ordered.register_all tools (Ordered.register t r)).
    destruct (IH (Ordered.register t r)) as [Hvalues Hcats]; [done|..].
    + intros t' Hin. rewrite list_all_tools_register. unfold add_once.
      assert (tool_name (metadata t') ≠ tool_name (metadata t)) as Hne.
      { intros Heq. apply Ht. rewrite <- Heq.
        by apply (list_elem_of_fmap_2 (λ tool, tool_name (metadata tool))). }
      case_bool_decide.
      * apply Hkeys. by right.
      * rewrite elem_of_app, list_elem_of_singleton.
        intros [Hin'|?]; [|done]. revert Hin'. apply Hkeys. by right.
    + intros c n. rewrite members_of_unordered, unordered_register.
      rewrite category_members_register, <- members_of_unordered.
      intros Hn Hin.
      assert (n ∈ Ordered.members_of (Ordered._categories r) c
              ∨ n = tool_name (metadata t)) as [Hold| ->].
      { repeat case_match; auto.
        apply elem_of_app in Hn as [?|?%list_elem_of_singleton]; auto. }
      * apply (Hlisted c n Hold). rewrite fmap_cons. by right.
      * done.
    + split.
      * rewrite Hvalues. unfold Ordered.register; simpl.
        rewrite pydict_set_fresh by (apply Hkeys; left).
        unfold pydict_values. rewrite fmap_app, <- app_assoc. done.
      * rewrite Hcats, categories_register_fresh; [done|].
        intros Hin. apply (Hlisted _ _ Hin). rewrite fmap_cons. left.
Qed.

(** X20.  When the registered tools have distinct names, the grouping
    that [list_tool_categories] computes from the metadata is the category
    index of the registry itself, with the same categories in the same
    order and the same lists. *)
Theorem list_tool_categories_agrees_with_index tools :
  NoDup ((λ tool, tool_name (metadata tool)) <$> tools) →
  let r := Ordered.register_all tools Ordered.new_registry in
  Routes.list_tool_categories r
  = Response {| Routes.categories := Ordered._categories r;
                Routes.category_count := length (Ordered._categories r) |}
  ∧ Ordered.get_tools_metadata r = metadata <$> tools.
Proof.
  intros Hnd r.
  destruct (registrations_of_fresh_names tools Ordered.new_registry Hnd)
    as [Hvalues Hcats].
  { intros tool _. apply not_elem_of_nil. }
  { intros c n Hn. by apply elem_of_nil in Hn. }
  fold r in Hvalues, Hcats. simpl in Hvalues, Hcats.
  assert (Ordered.get_tools_metadata r = metadata <$> tools) as Hmds
    by (unfold Ordered.get_tools_metadata; by rewrite Hvalues).
  split; [|done].
  unfold Routes.list_tool_categories. by rewrite Hmds, <- Hcats.
Qed.
End ListingFacts.

(** ** The routes that look a tool up, and the tool wrapper *)

Section RouteFacts.
Context {W : Type} `{Environment W} `{PyBuiltins} `{PyStrings} `{PyJson}.
Implicit Types (tool : MCPTool W) (tools : list (MCPTool W))
  (r : Ordered.ToolRegistry W) (n c : string)
  (parameters : gmap string pyval) (s : ToolState W).

Lemma call_safe_execute_plain tool parameters s :
  parameters !! "self" = None →
  call_safe_execute tool parameters s = safe_execute tool parameters s.
Proof.
  intros Hself. unfold call_safe_execute.
  rewrite bool_decide_eq_false_2; [done|]. rewrite Hself. by intros [? ?].
Qed.

Lemma call_safe_execute_self tool parameters s :
  is_Some (parameters !! "self") →
  call_safe_execute tool parameters s = (Raise duplicate_self, s).
Proof.
  intros Hself. unfold call_safe_execute.
  by rewrite bool_decide_eq_true_2.
Qed.

(** X21.  The status of [execute_tool].  A name that is not registered
    gives 404 and touches nothing.  For a registered name and parameters
    without the key [self], the route answers with the fields of the
    envelope that [safe_execute] returns, whether the tool succeeded or
    failed, so a failing tool is no HTTP error; when [safe_execute] raises,
    which it does for an exception outside [Exception] only, the handlers
    of the route do not take the exception either and the route gives no
    response.  The only way to 500 is a parameter named [self], which is
    rejected before the tool runs. *)
Theorem execute_tool_statuses r n parameters s :
  (Ordered.get_tool r n = None →
   Routes.execute_tool r n parameters s
   = (HTTPException 404 ("工具 " ++ n ++ " 不存在"), s))
  ∧ (∀ tool, Ordered.get_tool r n = Some tool →
       parameters !! "self" = None →
       match safe_execute tool parameters s with
       | (Ret envelope, s') =>
           Routes.execute_tool r n parameters s
           = (Response
                {| Routes.body_tool_name := n;
                   Routes.body_success := success envelope;
                   Routes.body_result := result envelope;
                   Routes.body_error := error envelope;
                   Routes.body_execution_time := execution_time envelope;
                   Routes.body_timestamp := timestamp envelope |}, s')
       | (Raise e, s') =>
           is_Exception e = false
           ∧ Routes.execute_tool r n parameters s = (Uncaught e, s')
       end)
  ∧ (∀ tool, Ordered.get_tool r n = Some tool →
       is_Some (parameters !! "self") →
       Routes.execute_tool r n parameters s
       = (HTTPException 500 (str duplicate_self), s))
  ∧ (∀ detail s',
       Routes.execute_tool r n parameters s
       = (HTTPException 500 detail, s') →
       is_Some (Ordered.get_tool r n) ∧ is_Some (parameters !! "self"))
  ∧ (∀ e s',
       Routes.execute_tool r n parameters s = (Uncaught e, s') →
       is_Exception e = false
       ∧ ∃ tool, Ordered.get_tool r n = Some tool
                 ∧ safe_execute tool parameters s = (Raise e, s')).
Proof.
  unfold Routes.execute_tool. split; [|split; [|split; [|split]]].
  - by intros ->.
  - intros tool -> Hself. rewrite call_safe_execute_plain by done.
    destruct (safe_execute tool parameters s) as [[envelope|e] s'] eqn:Hrun;
      [done|].
    apply safe_execute_raises in Hrun as [Hx _]. by rewrite Hx.
  - intros tool -> Hself. by rewrite call_safe_execute_self.
  - intros detail s'.
    destruct (Ordered.get_tool r n) as [tool|]; [|done].
    destruct (parameters !! "self") as [v|] eqn:Hself.
    + intros _. split; by eexists.
    + rewrite call_safe_execute_plain by done.
      destruct (safe_execute tool parameters s) as [[envelope|e] s1] eqn:Hrun;
        [done|].
      apply safe_execute_raises in Hrun as [Hx _]. by rewrite Hx.
  - intros e s'.
    destruct (Ordered.get_tool r n) as [tool|]; [|done].
    destruct (parameters !! "self") as [v|] eqn:Hself.
    + by rewrite call_safe_execute_self by (by eexists).
    + rewrite call_safe_execute_plain by done.
      destruct (safe_execute tool parameters s) as [[envelope|e'] s1] eqn:Hrun;
        [done|].
      destruct (is_Exception e') eqn:Hx; [done|].
      intros [= <- <-]. split; [done|]. by exists tool.
Qed.

(** X24.  What the wrapper handed to the agent answers.  No instance of
    [Exception] leaves it.  A keyword named [self] becomes the exception
    text and the tool is not run.  Otherwise a failure envelope becomes the
    failure text followed by the error of the envelope; a success envelope
    becomes the JSON text of its result, or the exception text when the
    serialization raises an instance of [Exception].  An exception outside
    [Exception], raised by [safe_execute] or by the serialization, is not
    taken by the handler of the wrapper and is raised to the agent. *)
Theorem wrapped_tool_answers tool (kwargs : gmap string pyval) s :
  (∀ e s', Service.wrapped_tool tool kwargs s = (Raise e, s') →
     is_Exception e = false)
  ∧ (is_Some (kwargs !! "self") →
     Service.wrapped_tool tool kwargs s
     = (Ret ("工具执行异常: " ++ str duplicate_self), s))
  ∧ (kwargs !! "self" = None →
     match safe_execute tool kwargs s with
     | (Raise e, s1) =>
         is_Exception e = false
         ∧ Service.wrapped_tool tool kwargs s = (Raise e, s1)
     | (Ret envelope, s1) =>
         Service.wrapped_tool tool kwargs s
         = (if success envelope then
              match json_dumps (result envelope) with
              | Ret json => Ret json
              | Raise e =>
                  if is_Exception e then Ret ("工具执行异常: " ++ str e)
                  else Raise e
              end
            else Ret ("工具执行失败: " ++ format_optional (error envelope)),
            s1)
     end).
Proof.
  assert (is_Some (kwargs !! "self") →
          Service.wrapped_tool tool kwargs s
          = (Ret ("工具执行异常: " ++ str duplicate_self), s)) as Hself.
  { intros Hk. unfold Service.wrapped_tool, try_except, bind.
    by rewrite call_safe_execute_self. }
  assert (kwargs !! "self" = None →
     match safe_execute tool kwargs s with
     | (Raise e, s1) =>
         is_Exception e = false
         ∧ Service.wrapped_tool tool kwargs s = (Raise e, s1)
     | (Ret envelope, s1) =>
         Service.wrapped_tool tool kwargs s
         = (if success envelope then
              match json_dumps (result envelope) with
              | Ret json => Ret json
              | Raise e =>
                  if is_Exception e then Ret ("工具执行异常: " ++ str e)
                  else Raise e
              end
            else Ret ("工具执行失败: " ++ format_optional (error envelope)),
            s1)
     end) as Hplain.
  { intros Hk. unfold Service.wrapped_tool, try_except, bind.
    rewrite call_safe_execute_plain by done.
    destruct (safe_execute tool kwargs s) as [[envelope|e] s1] eqn:Hrun.
    - destruct (success envelope); [|done]. unfold pure_call.
      destruct (json_dumps (result envelope)) as [json|e]; [done|].
      by destruct (is_Exception e).
    - apply safe_execute_raises in Hrun as [Hx _]. by rewrite Hx. }
  split; [|by split].
  intros e s'. destruct (kwargs !! "self") as [v|] eqn:Hk.
  - rewrite Hself by (by eexists). done.
  - specialize (Hplain eq_refl).
    destruct (safe_execute tool kwargs s) as [[envelope|e'] s1].
    + rewrite Hplain. destruct (success envelope); [|done].
      destruct (json_dumps (result envelope)) as [json|e'']; [done|].
      destruct (is_Exception e'') eqn:Hx; [done|]. by intros [= <- <-].
    + destruct Hplain as [Hx ->]. by intros [= <- <-].
Qed.
Lemma ordered_comprehension r (names : list string) :
  well_keyed r →
  (∀ n, n ∈ names → is_Some (Ordered.get_tool r n)) →
  ∃ found, comprehension (Ordered.tools_getitem r) names = Ret found
           ∧ (λ tool, tool_name (metadata tool)) <$> found = names.
Proof.
  intros (_ & _ & Hown).
  induction names as [|n names IH]; intros Hreg; [by exists []|].
  destruct (Hreg n) as [tool Ht]; [left|].
  destruct IH as (found & Hfound & Hnames).
  { intros n' Hn'. apply Hreg. by right. }
  exists (tool :: found). cbn [comprehension].
  unfold Ordered.tools_getitem at 1. unfold Ordered.get_tool in Ht.
  rewrite Ht, Hfound. split; [done|].
  rewrite fmap_cons, Hnames. f_equal.
  apply Hown. by apply pydict_get_Some_elem_of.
Qed.

(** X22.  The route [get_tools_by_category] never fails on a registry
    reached by registrations: it answers with one summary per name that the
    category index lists under the category, in the order of the index, and
    [count] is their number; a category that no registered tool has gives
    the empty list and the count 0. *)
Theorem category_route_follows_the_index tools c :
  let r := Ordered.register_all tools Ordered.new_registry in
  ∃ body, Routes.get_tools_by_category r c = Response body
    ∧ Routes.category_name body = c
    ∧ Routes.summary_name <$> Routes.category_tools body
      = Ordered.members_of (Ordered._categories r) c
    ∧ Routes.count body = length (Routes.category_tools body)
    ∧ (c ∉ (λ tool, category (metadata tool)) <$> tools →
       Routes.category_tools body = [] ∧ Routes.count body = 0%nat).
Proof.
  intros r.
  assert (well_keyed r) as Hwk
    by apply well_keyed_register_all, well_keyed_new.
  assert (indexes_consistent (unordered r)) as Hcons.
  { unfold r. rewrite unordered_register_all.
    apply indexes_consistent_register_all, indexes_consistent_new. }
  destruct (ordered_comprehension r
              (Ordered.members_of (Ordered._categories r) c) Hwk)
    as (found & Hfound & Hnames).
  { intros n Hn. rewrite members_of_unordered in Hn.
    destruct (Hcons c) as [_ Hreg].
    unfold Ordered.get_tool. rewrite pydict_get_to_map. by apply Hreg. }
  assert (Ordered.get_tools_by_category r c = Ret found) as Hget
    by exact Hfound.
  assert (c ∉ (λ tool, category (metadata tool)) <$> tools → found = [])
    as Hunknown.
  { intros Hc.
    assert (Ordered.members_of (Ordered._categories r) c = []) as Hnone.
    { rewrite members_of_unordered. unfold r, category_members.
      rewrite unordered_register_all.
      by rewrite categories_register_all_None. }
    rewrite Hnone in Hnames. by destruct found. }
  unfold Routes.get_tools_by_category. rewrite Hget.
  destruct found as [|t found].
  - eexists. split; [reflexivity|]. simpl. by rewrite <- Hnames.
  - eexists. split; [reflexivity|]. cbn [Routes.category_name
      Routes.category_tools Routes.count].
    split; [done|]. split.
    + rewrite <- Hnames, <- list_fmap_compose. done.
    + split; [done|]. intros Hc. by specialize (Hunknown Hc).
Qed.

Lemma filter_sublist_impl {A} (P Q : A → Prop)
    `{∀ x, Decision (P x)} `{∀ x, Decision (Q x)} (l : list A) :
  (∀ x, P x → Q x) → filter P l `sublist_of` filter Q l.
Proof.
  intros HPQ. induction l as [|x l IH]; simpl; [done|].
  rewrite !filter_cons. destruct (decide (P x)) as [HP|HP].
  - rewrite decide_True by auto. by constructor.
  - destruct (decide (Q x)); [by constructor|done].
Qed.

Lemma filter_all {A} (P : A → Prop) `{∀ x, Decision (P x)} (l : list A) :
  (∀ x, x ∈ l → P x) → filter P l = l.
Proof.
  induction l as [|x l IH]; intros HP; [done|].
  rewrite filter_cons, decide_True by (apply HP; left).
  f_equal. apply IH. intros y Hy. apply HP. by right.
Qed.

(** When the loop of [search_tools] appends a tool. *)
Lemma search_keeps_spec (q wanted_category wanted_tag : option string)
    (md : ToolMetadata) :
  Routes.search_keeps q wanted_category wanted_tag md = true
  ↔ (truthy_str wanted_category = true →
     wanted_category = Some (category md))
    ∧ (truthy_str wanted_tag = true →
       ∃ tag, wanted_tag = Some tag ∧ tag ∈ tags md)
    ∧ (truthy_str q = true →
       ∃ keyword, q = Some keyword
         ∧ py_contains (py_lower keyword)
             (py_lower (tool_name md ++ " " ++ tool_description md))
           = true).
Proof.
  unfold Routes.search_keeps.
  destruct wanted_category as [wc|], wanted_tag as [wt|], q as [k|];
    repeat match goal with
           | |- context [truthy_str (Some ?x)] =>
               destruct (truthy_str (Some x)) eqn:?
           end;
    simpl; repeat case_bool_decide; simpl;
    naive_solver.
Qed.

(** X23.  [search_tools] never fails and only narrows.  Its hits are taken
    from the registered tools in enumeration order and [count] is their
    number; a filter that is absent or the empty string is ignored, so a
    search without filters returns every tool; every hit has the wanted
    category and the wanted tag; and dropping the keyword, the category or
    the tag from a search never loses a hit. *)
Theorem search_tools_narrows r (q wanted_category wanted_tag : option string) :
  ∃ body, Routes.search_tools r q wanted_category wanted_tag = Response body
    ∧ Routes.hit_count body = length (Routes.hits body)
    ∧ Routes.hits body
      `sublist_of` (Routes.hit_of <$> Ordered.get_tools_metadata r)
    ∧ (truthy_str q = false → truthy_str wanted_category = false →
       truthy_str wanted_tag = false →
       Routes.hits body = Routes.hit_of <$> Ordered.get_tools_metadata r)
    ∧ (∀ hit, hit ∈ Routes.hits body →
         (truthy_str wanted_category = true →
          wanted_category = Some (Routes.hit_category hit))
         ∧ (truthy_str wanted_tag = true →
            ∃ tag, wanted_tag = Some tag ∧ tag ∈ Routes.hit_tags hit))
    ∧ ∀ wider,
        (Routes.search_tools r None wanted_category wanted_tag
         = Response wider
         ∨ Routes.search_tools r q None wanted_tag = Response wider
         ∨ Routes.search_tools r q wanted_category None = Response wider) →
        Routes.hits body `sublist_of` Routes.hits wider.
Proof.
  eexists. split; [reflexivity|]. cbn [Routes.hits Routes.hit_count].
  split; [done|]. split; [apply fmap_sublist, sublist_filter|].
  split; [|split].
  - intros Hq Hc Ht. f_equal. apply filter_all. intros md _.
    apply search_keeps_spec. rewrite Hq, Hc, Ht. done.
  - intros hit (md & -> & [Hkeep _]%list_elem_of_filter)%list_elem_of_fmap.
    apply search_keeps_spec in Hkeep as (Hc & Ht & _). done.
  - intros wider Hwider. unfold Routes.search_tools in Hwider.
    destruct Hwider as [[= <-]|[[= <-]|[= <-]]];
      cbn [Routes.hits]; apply fmap_sublist, filter_sublist_impl;
      intros md (Hc & Ht & Hq)%search_keeps_spec;
      apply search_keeps_spec; repeat split; done.
Qed.
Lemma wrap_each_bound {A} (wrap : MCPTool W → outcome A) r
    (bound : pydict (MCPTool W)) (acc : list A) :
  (∀ k tool, (k, tool) ∈ bound → Ordered.get_tool r k = Some tool) →
  Service.wrap_each wrap r (pydict_keys bound) acc
  = match comprehension wrap (pydict_values bound) with
    | Ret wrapped => Ret (acc ++ wrapped)%list
    | Raise e => Raise e
    end.
Proof.
  revert acc. unfold pydict_keys, pydict_values.
  induction bound as [|[k t] bound IH]; intros acc Hget.
  - simpl. by rewrite app_nil_r.
  - rewrite !fmap_cons. cbn [Service.wrap_each comprehension fst snd].
    rewrite (Hget k t) by left. destruct (wrap t) as [x|e]; [|done].
    rewrite IH by (intros k' t' Hin; apply Hget; by right).
    destruct (comprehension wrap bound.*2); [|done].
    f_equal. by rewrite <- app_assoc.
Qed.

Lemma comprehension_length {A B} (f : A → outcome B) (l : list A)
    (out : list B) :
  comprehension f l = Ret out → length out = length l.
Proof.
  revert out. induction l as [|x l IH]; intros out; simpl.
  - by intros [= <-].
  - destruct (f x); [|done]. destruct (comprehension f l); [|done].
    intros [= <-]. simpl. f_equal. by apply IH.
Qed.

(** X25.  [_create_langchain_tools] hands every registered tool to the
    wrapper exactly once, in the order of [list_all_tools], and the tool it
    hands over for a name is the one [get_tool] returns for it: the lookup
    in the loop never misses.  When the wrapper raises for none of them the
    result has one wrapper per registered name. *)
Theorem every_registered_tool_is_wrapped {A}
    (wrap : MCPTool W → outcome A) tools :
  let r := Ordered.register_all tools Ordered.new_registry in
  Service._create_langchain_tools wrap r
  = comprehension wrap (pydict_values (Ordered._tools r))
  ∧ (λ tool, tool_name (metadata tool)) <$> pydict_values (Ordered._tools r)
    = Ordered.list_all_tools r
  ∧ (∀ tool, tool ∈ pydict_values (Ordered._tools r) →
       Ordered.get_tool r (tool_name (metadata tool)) = Some tool)
  ∧ ∀ wrapped, Service._create_langchain_tools wrap r = Ret wrapped →
      length wrapped = length (Ordered.list_all_tools r).
Proof.
  intros r.
  destruct (well_keyed_register_all tools _ well_keyed_new)
    as (Hkeys & _ & Hown). fold r in Hkeys, Hown.
  assert (∀ k tool, (k, tool) ∈ Ordered._tools r →
            Ordered.get_tool r k = Some tool) as Hget.
  { intros k tool Hin. unfold Ordered.get_tool.
    rewrite pydict_get_to_map. by apply elem_of_list_to_map_1. }
  assert (Service._create_langchain_tools wrap r
          = comprehension wrap (pydict_values (Ordered._tools r))) as Hall.
  { unfold Service._create_langchain_tools, Ordered.list_all_tools.
    rewrite (wrap_each_bound wrap r _ [] Hget).
    by destruct (comprehension wrap (pydict_values (Ordered._tools r))). }
  split; [done|]. split; [by apply names_of_values|]. split.
  - intros tool ([k t] & -> & Hin)%list_elem_of_fmap. simpl.
    rewrite (Hown k t Hin). by apply Hget.
  - intros wrapped Hw. rewrite Hall in Hw.
    apply comprehension_length in Hw. rewrite Hw.
    unfold pydict_values, Ordered.list_all_tools, pydict_keys.
    by rewrite !length_fmap.
Qed.
End RouteFacts.

(** ** The further properties on concrete inputs *)

Section MoreExamples.
#[local] Existing Instance reference_builtins.
#[local] Existing Instance sim_environment.
#[local] Existing Instance reference_strings.
#[local] Existing Instance reference_json.

Ltac distinct_strings :=
  repeat (apply NoDup_cons_2;
          [rewrite ?not_elem_of_cons; repeat split;
           (discriminate || apply not_elem_of_nil)|]);
  apply NoDup_nil_2.

Lemma validated_arguments_are_complete_witness :
  is_Some (({["query" := VStr "rocq"; "num_results" := VInt 5;
              "lang" := VStr "zh-CN"]} : gmap string pyval) !! "lang").
Proof.
  destruct (validated_arguments_are_complete GoogleSearchTool_metadata
              {["query" := VStr "rocq"]}
              {["query" := VStr "rocq"; "num_results" := VInt 5;
                "lang" := VStr "zh-CN"]}) as [Hkeys _].
  { vm_compute. reflexivity. }
  apply (Hkeys {| name := "lang"; type := "string";
                  description := "搜索语言"; required := false;
                  default := VStr "zh-CN"; enum := None |}).
  - apply (list_elem_of_lookup_2 _ 2%nat). reflexivity.
  - right. discriminate.
Defined.

Lemma validated_arguments_validate_to_themselves_witness :
  let validated : gmap string pyval :=
    {["file_path" := VStr "notes.txt"; "content" := VStr "hello";
      "encoding" := VStr "utf-8"; "mode" := VStr "w"]} in
  validate_parameters FileWriteTool_metadata validated = Ret validated.
Proof.
  intros validated.
  apply (validated_arguments_validate_to_themselves FileWriteTool_metadata
           {["file_path" := VStr "notes.txt"; "content" := VStr "hello"]}).
  - unfold declared_names. simpl. distinct_strings.
  - vm_compute. reflexivity.
Defined.

Lemma validated_values_respect_enum_witness :
  py_in (VStr "a") [VStr "w"; VStr "a"] = true.
Proof.
  apply (validated_values_respect_enum FileWriteTool_metadata
           {["file_path" := VStr "notes.txt"; "content" := VStr "hello";
             "mode" := VStr "a"]}
           {["file_path" := VStr "notes.txt"; "content" := VStr "hello";
             "encoding" := VStr "utf-8"; "mode" := VStr "a"]}
           {| name := "mode"; type := "string"; description := "写入模式";
              required := false; default := VStr "w";
              enum := Some [VStr "w"; VStr "a"] |}).
  - unfold declared_names. simpl. distinct_strings.
  - vm_compute. reflexivity.
  - apply (list_elem_of_lookup_2 _ 3%nat). reflexivity.
  - reflexivity.
  - reflexivity.
Defined.

Lemma validation_failures_witness :
  ∃ param, param ∈ parameters FileWriteTool_metadata
    ∧ name param = "mode"
    ∧ resolved_py {["file_path" := VStr "notes.txt";
                    "content" := VStr "hello"; "mode" := VStr "x"]} param
      = VStr "x".
Proof.
  destruct (validation_failures FileWriteTool_metadata
              {["file_path" := VStr "notes.txt"; "content" := VStr "hello";
                "mode" := VStr "x"]}
              (ValueError "参数 mode 值必须在 ['w', 'a'] 中"))
    as (param & Hin & Hwhy).
  { vm_compute. reflexivity. }
  exists {| name := "mode"; type := "string"; description := "写入模式";
            required := false; default := VStr "w";
            enum := Some [VStr "w"; VStr "a"] |}.
  split; [apply (list_elem_of_lookup_2 _ 3%nat); reflexivity|].
  split; reflexivity.
Defined.

Lemma success_comes_from_execute_witness :
  ∃ validated, validate_parameters echo_metadata {["text" := VStr "hi"]}
               = Ret validated.
Proof.
  destruct (success_comes_from_execute echo {["text" := VStr "hi"]}
              (new_tool unconfigured)
              {| success := true; result := VStr "hi"; error := None;
                 result_metadata := None; execution_time := Some 300;
                 timestamp := 250 |}
              {| _initialized := true;
                 world := {| clock_readings := [700];
                             GOOGLE_API_KEY := None;
                             GOOGLE_CSE_ID := None |} |})
    as (w1 & validated & r0 & w2 & _ & Hvalid & _).
  { vm_compute. reflexivity. }
  { reflexivity. }
  by exists validated.
Defined.

Lemma execute_needs_setup_and_validation_witness :
  let tool := GoogleSearchTool offline_search in
  safe_execute (with_execute echo_execute tool) {["query" := VStr "rocq"]}
    (new_tool unconfigured)
  = safe_execute tool {["query" := VStr "rocq"]} (new_tool unconfigured).
Proof.
  intros tool. apply execute_needs_setup_and_validation.
  left. eexists _, _. vm_compute. reflexivity.
Defined.

Lemma setup_is_not_run_again_witness :
  let ready := {| _initialized := true; world := unconfigured |} in
  run_calls (with_initialize GoogleSearchTool_initialize echo) ready
    [Initialize; SafeExecute {["text" := VStr "hi"]}]
  = run_calls echo ready [Initialize; SafeExecute {["text" := VStr "hi"]}].
Proof. intros ready. by apply setup_is_not_run_again. Defined.

Lemma initialized_after_safe_execute_witness :
  _initialized (snd (safe_execute echo ∅ (new_tool unconfigured))) = true.
Proof.
  apply initialized_after_safe_execute.
  eexists. vm_compute. reflexivity.
Defined.

Lemma distinct_names_give_exact_categories_witness :
  get_tools_by_category
    (register_all (tools_to_register offline_bodies) new_registry) "file"
  = Ret (filter (λ tool, category (metadata tool) = "file")
           (tools_to_register offline_bodies)).
Proof.
  apply (distinct_names_give_exact_categories
           (tools_to_register offline_bodies) "file").
  simpl. distinct_strings.
Defined.

Lemma list_all_tools_after_registrations_witness :
  NoDup (Ordered.list_all_tools
           (Ordered.register_all (tools_to_register offline_bodies)
              Ordered.new_registry)).
Proof.
  apply (list_all_tools_after_registrations
           (tools_to_register offline_bodies) Ordered.new_registry).
  apply NoDup_nil_2.
Defined.

Lemma enumerations_are_aligned_witness :
  ∃ tool,
    Ordered.get_tool
      (Ordered.register_all (tools_to_register offline_bodies)
         Ordered.new_registry) "file_read" = Some tool
    ∧ tool_name (metadata tool) = "file_read".
Proof.
  destruct (enumerations_are_aligned (tools_to_register offline_bodies)
              (λ _, new_tool unconfigured)) as (_ & _ & _ & _ & Hfound).
  apply Hfound. apply (list_elem_of_lookup_2 _ 2%nat). reflexivity.
Defined.

Lemma file_write_arguments_witness :
  let validated : gmap string pyval :=
    {["file_path" := VStr "notes.txt"; "content" := VStr "hello";
      "encoding" := VStr "utf-8"; "mode" := VStr "w"]} in
  validated !! "mode" = Some (VStr "w")
  ∨ validated !! "mode" = Some (VStr "a").
Proof.
  intros validated.
  destruct (file_write_arguments
              {["file_path" := VStr "notes.txt"; "content" := VStr "hello"]}
              validated) as (_ & _ & _ & _ & Hmode).
  { vm_compute. reflexivity. }
  exact Hmode.
Defined.

Lemma list_tools_lists_every_name_witness :
  ∃ body,
    Routes.list_tools
      (Ordered.register_all (tools_to_register offline_bodies)
         Ordered.new_registry) = Response body
    ∧ Routes.total_count body = 5%nat.
Proof.
  destruct (list_tools_lists_every_name (tools_to_register offline_bodies))
    as (body & Hbody & _ & Hcount & _).
  exists body. split; [exact Hbody|]. exact Hcount.
Defined.

Lemma list_tool_categories_agrees_with_index_witness :
  Ordered.get_tools_metadata
    (Ordered.register_all (tools_to_register offline_bodies)
       Ordered.new_registry)
  = metadata <$> tools_to_register offline_bodies.
Proof.
  apply (list_tool_categories_agrees_with_index
           (tools_to_register offline_bodies)).
  simpl. distinct_strings.
Defined.

Lemma execute_tool_statuses_witness :
  let r := Ordered.register echo Ordered.new_registry in
  ∃ envelope s',
    safe_execute echo ∅ (new_tool unconfigured) = (Ret envelope, s')
    ∧ Routes.execute_tool r "echo" ∅ (new_tool unconfigured)
      = (Response
           {| Routes.body_tool_name := "echo";
              Routes.body_success := success envelope;
              Routes.body_result := result envelope;
              Routes.body_error := error envelope;
              Routes.body_execution_time := execution_time envelope;
              Routes.body_timestamp := timestamp envelope |}, s').
Proof.
  intros r.
  destruct (execute_tool_statuses r "echo" ∅ (new_tool unconfigured))
    as (_ & Hfound & _).
  specialize (Hfound echo eq_refl eq_refl).
  destruct (safe_execute echo ∅ (new_tool unconfigured))
    as [[envelope|e] s'] eqn:Hrun.
  - by exists envelope, s'.
  - vm_compute in Hrun. discriminate.
Defined.

Lemma category_route_follows_the_index_witness :
  ∃ body,
    Routes.get_tools_by_category
      (Ordered.register_all (tools_to_register offline_bodies)
         Ordered.new_registry) "nonexistent" = Response body
    ∧ Routes.category_tools body = [] ∧ Routes.count body = 0%nat.
Proof.
  destruct (category_route_follows_the_index
              (tools_to_register offline_bodies) "nonexistent")
    as (body & Hbody & _ & _ & _ & Hunknown).
  exists body. split; [exact Hbody|]. apply Hunknown.
  simpl. rewrite !not_elem_of_cons.
  repeat split; (discriminate || apply not_elem_of_nil).
Defined.

Lemma search_tools_narrows_witness :
  let r := Ordered.register_all (tools_to_register offline_bodies)
             Ordered.new_registry in
  ∃ body, Routes.search_tools r (Some "") None None = Response body
    ∧ Routes.hits body = Routes.hit_of <$> Ordered.get_tools_metadata r.
Proof.
  intros r.
  destruct (search_tools_narrows r (Some "") None None)
    as (body & Hbody & _ & _ & Hall & _).
  exists body. split; [exact Hbody|]. by apply Hall.
Defined.

Lemma wrapped_tool_answers_witness :
  let s := new_tool unconfigured in
  Service.wrapped_tool echo {["self" := VInt 1]} s
  = (Ret ("工具执行异常: " ++ str duplicate_self), s)
  ∧ Service.wrapped_tool (with_execute cancelled_execute echo)
      {["text" := VStr "hi"]} s
    = (Raise (CancelledError EmptyString),
       {| _initialized := true; world := after_start s |}).
Proof.
  intros s. split.
  - destruct (wrapped_tool_answers echo {["self" := VInt 1]} s)
      as (_ & Hself & _).
    apply Hself. by eexists.
  - destruct (wrapped_tool_answers (with_execute cancelled_execute echo)
                {["text" := VStr "hi"]} s) as (_ & _ & Hplain).
    specialize (Hplain eq_refl).
    destruct (safe_execute (with_execute cancelled_execute echo)
                {["text" := VStr "hi"]} s) as [[envelope|e] s1] eqn:Hrun.
    + vm_compute in Hrun. discriminate.
    + destruct Hplain as [_ ->]. vm_compute in Hrun.
      by injection Hrun as <- <-.
Defined.

Lemma every_registered_tool_is_wrapped_witness :
  ∃ names,
    Service._create_langchain_tools
      (λ tool, Ret (tool_name (metadata tool)))
      (Ordered.register_all (tools_to_register offline_bodies)
         Ordered.new_registry) = Ret names
    ∧ length names = 5%nat.
Proof.
  destruct (every_registered_tool_is_wrapped
              (λ tool, Ret (tool_name (metadata tool)))
              (tools_to_register offline_bodies)) as (_ & _ & _ & Hlength).
  eexists. split; [vm_compute; reflexivity|].
  apply Hlength. vm_compute. reflexivity.
Defined.
End MoreExamples.
